(** * GINSE: the conversation / generation orchestration of [App.tsx]

    A shallow embedding of the React component [App] (src/App.tsx), of the
    seed data of src/constants.ts and of the types of src/types.ts.

    - The component state ([useState] cells), [sessionStorage] and the
      [alert] box form the record [World].
    - An [async] handler is a tree of type [Async]: state updates, clock
      reads, and [await]s of the generation service, whose continuation
      receives the settled promise.  [try]/[catch]/[finally] are tree
      combinators.
    - [run] plays one handler invocation to its end against an environment
      that settles every awaited call; [step] is the event loop: user
      intents and settling promises interleave, one synchronous segment at
      a time.
    - What the browser and the service answer to the synchronous calls
      ([initializeAi], [sessionStorage.getItem], [sessionStorage.setItem])
      is given to the handler that makes the call: each of them returns or
      throws.
    - The rendering components and the output of [console.error] are left
      out. *)

From stdpp Require Import base option list strings gmap.

(** ** src/types.ts *)

Inductive MessageType :=
| TEXT | SUGGESTION | ARCHITECTURE | CODE | REFACTOR_ANALYSIS | APP_PREVIEW_PROMPT.

Inductive MessageAuthor := user | ai.

Module ApiEndpoint.
Record t := mk { method : string; path : string; description : string }.
End ApiEndpoint.

Module Microservice.
Record t := mk {
  id : string;
  name : string;
  description : string;
  apiEndpoints : list ApiEndpoint.t }.
End Microservice.

Inductive DataStoreType := PostgreSQL | MongoDB | Redis | S3_Bucket | Other.

Module DataStore.
Record t := mk {
  id : string;
  name : string;
  type : DataStoreType;
  schemaDescription : string }.
End DataStore.

Module AppArchitecture.
Record t := mk {
  name : string;
  description : string;
  microservices : list Microservice.t;
  dataStores : list DataStore.t }.
End AppArchitecture.

(** [{ [filename: string]: string }] *)
Abbreviation CodeMap := (gmap string string).

Module ChatMessage.
Record t := mk {
  author : MessageAuthor;
  type : MessageType;
  content : string;
  suggestionContext : option string;
  architecture : option AppArchitecture.t;
  code : option CodeMap;
  codeLanguage : option string;
  timestamp : string }.
End ChatMessage.

(** [Omit<ChatMessage, 'timestamp'>], the argument of [addMessage]. *)
Module Draft.
Record t := mk {
  author : MessageAuthor;
  type : MessageType;
  content : string;
  suggestionContext : option string;
  architecture : option AppArchitecture.t;
  code : option CodeMap;
  codeLanguage : option string }.

(** An object literal that gives only [author], [type] and [content]. *)
Definition plain (a : MessageAuthor) (ty : MessageType) (c : string) : t :=
  mk a ty c None None None None.

Definition with_architecture (arch : AppArchitecture.t) (d : t) : t :=
  mk (author d) (type d) (content d) (suggestionContext d)
     (Some arch) (code d) (codeLanguage d).

Definition with_code (files : CodeMap) (lang : string) (d : t) : t :=
  mk (author d) (type d) (content d) (suggestionContext d)
     (architecture d) (Some files) (Some lang).
End Draft.

(** [{ ...message, timestamp: now }] *)
Definition stamp (message : Draft.t) (now : string) : ChatMessage.t :=
  ChatMessage.mk (Draft.author message) (Draft.type message)
    (Draft.content message) (Draft.suggestionContext message)
    (Draft.architecture message) (Draft.code message)
    (Draft.codeLanguage message) now.

(** ** src/constants.ts *)

(** [INITIAL_CHAT_MESSAGES]; [loaded] is the clock reading taken when the
    module is evaluated. *)
Definition INITIAL_CHAT_MESSAGES (loaded : string) : list ChatMessage.t :=
  [ ChatMessage.mk ai TEXT
      "Welcome! I'm your AI development partner. Describe the app you want to build, and I'll generate the architecture, code, and UI previews for you."
      None None None None loaded ].

(** ** The component state of [App] and its surroundings *)

Module PreviewData.
Record t := mk {
  name : string;
  htmlContent : option string;
  isLoading : bool }.
End PreviewData.

Record World := mkWorld {
  chatHistory : list ChatMessage.t;
  isLoading : bool;
  apiKey : option string;
  isPreviewModalOpen : bool;
  previewData : PreviewData.t;
  sessionStorage : gmap string string;
  alerts : list string }.

Definition setChatHistory (f : list ChatMessage.t -> list ChatMessage.t)
    (w : World) : World :=
  mkWorld (f (chatHistory w)) (isLoading w) (apiKey w) (isPreviewModalOpen w)
          (previewData w) (sessionStorage w) (alerts w).

Definition setIsLoading (b : bool) (w : World) : World :=
  mkWorld (chatHistory w) b (apiKey w) (isPreviewModalOpen w)
          (previewData w) (sessionStorage w) (alerts w).

Definition setApiKey (k : option string) (w : World) : World :=
  mkWorld (chatHistory w) (isLoading w) k (isPreviewModalOpen w)
          (previewData w) (sessionStorage w) (alerts w).

Definition setPreviewModalOpen (b : bool) (w : World) : World :=
  mkWorld (chatHistory w) (isLoading w) (apiKey w) b
          (previewData w) (sessionStorage w) (alerts w).

Definition setPreviewData (p : PreviewData.t) (w : World) : World :=
  mkWorld (chatHistory w) (isLoading w) (apiKey w) (isPreviewModalOpen w)
          p (sessionStorage w) (alerts w).

(** [sessionStorage.setItem(k, v)] *)
Definition setItem (k v : string) (w : World) : World :=
  mkWorld (chatHistory w) (isLoading w) (apiKey w) (isPreviewModalOpen w)
          (previewData w) (<[k:=v]> (sessionStorage w)) (alerts w).

(** [alert(text)] *)
Definition alert (text : string) (w : World) : World :=
  mkWorld (chatHistory w) (isLoading w) (apiKey w) (isPreviewModalOpen w)
          (previewData w) (sessionStorage w) (alerts w ++ [text]).

(** The [useState] initial values (lines 11-21); the storage is whatever
    the browser tab holds when the component mounts. *)
Definition initialWorld (loaded : string) (storage : gmap string string) : World :=
  mkWorld (INITIAL_CHAT_MESSAGES loaded) false None false
          (PreviewData.mk EmptyString None false) storage [].

(** JavaScript truthiness of a [string | null]: [null] and the empty string
    are falsy.  This is the test behind [if (!apiKey)] and [if (storedKey)]. *)
Definition truthy (v : option string) : bool :=
  match v with
  | Some (String _ _) => true
  | Some EmptyString => false
  | None => false
  end.

(** ** Thrown values and settled promises *)

(** A thrown value is looked at only through
    [error instanceof Error ? error.message : ...]. *)
Inductive Thrown :=
| ErrorObject (message : string)
| NotAnError.

Inductive Outcome (R : Type) : Type :=
| Resolved (r : R)
| Rejected (e : Thrown).
Arguments Resolved {R} r.
Arguments Rejected {R} e.

(** The five asynchronous operations of ./services/geminiService that the
    component awaits, indexed by the type their promise resolves to. *)
Inductive GenCall : Type -> Type :=
| generateInitialArchitecture (description : string) : GenCall AppArchitecture.t
| generateBackendCode (arch : AppArchitecture.t) : GenCall CodeMap
| analyzeAndRefactorCode (codeToRefactor : CodeMap) : GenCall (string * CodeMap)
| generateFrontendPreview (service : Microservice.t) : GenCall string
| generateAppPreview (arch : AppArchitecture.t) : GenCall string.

(** A call with its result type packed away, for call logs. *)
Inductive Call := call (R : Type) (c : GenCall R).
Arguments call {R} c.

(** ** Handlers as trees *)

Inductive Async (A : Type) : Type :=
| Ret (a : A)
| Throw (e : Thrown)
| Update (f : World -> World) (k : Async A)
| Clock (k : string -> Async A)
| Await (R : Type) (c : GenCall R) (k : Outcome R -> Async A).
Arguments Ret {A} a.
Arguments Throw {A} e.
Arguments Update {A} f k.
Arguments Clock {A} k.
Arguments Await {A R} c k.

Fixpoint bind {A B : Type} (t : Async A) (f : A -> Async B) : Async B :=
  match t with
  | Ret a => f a
  | Throw e => Throw e
  | Update g k => Update g (bind k f)
  | Clock k => Clock (fun now => bind (k now) f)
  | Await c k => Await c (fun o => bind (k o) f)
  end.

#[global] Instance Async_ret : MRet Async := fun A a => Ret a.
#[global] Instance Async_bind : MBind Async := fun A B f t => bind t f.

(** [try { t } catch (error) { h error }] *)
Fixpoint try_catch {A : Type} (t : Async A) (h : Thrown -> Async A) : Async A :=
  match t with
  | Ret a => Ret a
  | Throw e => h e
  | Update g k => Update g (try_catch k h)
  | Clock k => Clock (fun now => try_catch (k now) h)
  | Await c k => Await c (fun o => try_catch (k o) h)
  end.

(** [try { t } finally { fin }]: [fin] runs on both exits, then the exit of
    [t] is taken again. *)
Fixpoint try_finally {A : Type} (t : Async A) (fin : Async unit) : Async A :=
  match t with
  | Ret a => bind fin (fun _ => Ret a)
  | Throw e => bind fin (fun _ => Throw e)
  | Update g k => Update g (try_finally k fin)
  | Clock k => Clock (fun now => try_finally (k now) fin)
  | Await c k => Await c (fun o => try_finally (k o) fin)
  end.

Definition try_catch_finally {A : Type} (t : Async A) (h : Thrown -> Async A)
    (fin : Async unit) : Async A :=
  try_finally (try_catch t h) fin.

(** A state setter call. *)
Definition update (f : World -> World) : Async unit := Update f (Ret tt).

(** [await c]: the value of a fulfilled promise, the reason of a rejected
    one thrown at the [await]. *)
Definition await {R : Type} (c : GenCall R) : Async R :=
  Await c (fun o => match o with
                    | Resolved r => Ret r
                    | Rejected e => Throw e
                    end).

(** [new Date().toLocaleTimeString('en-US', {hour, minute, hour12})] *)
Definition toLocaleTimeString : Async string := Clock Ret.

(** [error instanceof Error ? error.message : fallback] *)
Definition errorMessageOf (error : Thrown) : string :=
  match error with
  | ErrorObject message => message
  | NotAnError => "An unknown error occurred."
  end.

(** The double-quote character, for the template literals that hold one. *)
Definition dq : string := String (Ascii.ascii_of_nat 34) EmptyString.

(** ** src/App.tsx: the handlers *)

(** Lines 43-45.  The time stamp is taken when the updater runs, just
    before the new history is stored. *)
Definition addMessage (message : Draft.t) : Async unit :=
  now ← toLocaleTimeString;
  update (setChatHistory (fun prev => prev ++ [stamp message now])).

(** [sessionStorage.setItem(k, v)].  [written] is how the browser takes
    the write: it stores the entry, or it throws (storage full or blocked)
    and stores nothing. *)
Definition storageSetItem (written : Outcome unit) (k v : string) : Async unit :=
  match written with
  | Resolved _ => update (setItem k v)
  | Rejected e => Throw e
  end.

(** [sessionStorage.getItem(k)] on the storage [storage].  [readable] is
    whether the browser lets the storage be read: a blocked storage
    throws. *)
Definition storageGetItem (readable : Outcome unit)
    (storage : gmap string string) (k : string) : Async (option string) :=
  match readable with
  | Resolved _ => Ret (storage !! k)
  | Rejected e => Throw e
  end.

(** Lines 31-40.  [initializeAi] is the synchronous import of
    ./services/geminiService: it returns or throws.  The storage write of
    line 34 is inside the [try] as well. *)
Definition handleApiKeySubmit (initializeAi : string -> Outcome unit)
    (written : Outcome unit) (key : string) : Async unit :=
  try_catch
    (match initializeAi key with
     | Resolved _ => Ret tt
     | Rejected e => Throw e
     end;;
     storageSetItem written "gemini-api-key" key;;
     update (setApiKey (Some key)))
    (fun error =>
       update (alert "Failed to initialize with that API Key. Please check the key and try again.")).

(** Lines 24-29, the mount effect.  The storage read of line 25 is under
    no [try]: when it throws, the effect throws. *)
Definition useEffect (initializeAi : string -> Outcome unit)
    (written readable : Outcome unit) (storage : gmap string string)
    : Async unit :=
  storedKey ← storageGetItem readable storage "gemini-api-key";
  match storedKey with
  | Some key =>
      if truthy storedKey then handleApiKeySubmit initializeAi written key
      else Ret tt
  | None => Ret tt
  end.

(** Lines 47-99.  [apiKey] is the value the callback closed over. *)
Definition handleSendMessage (apiKey : option string) (message : string)
    : Async unit :=
  if negb (truthy apiKey) then
    addMessage (Draft.plain ai TEXT "Please set your API key before we begin.")
  else
    addMessage (Draft.plain user TEXT message);;
    update (setIsLoading true);;
    try_catch_finally
      (newArch ← await (generateInitialArchitecture message);
       addMessage (Draft.plain ai TEXT
         ("Excellent. I've analyzed your vision for " +:+ dq +:+
          AppArchitecture.name newArch +:+ dq +:+
          " and generated the initial architecture. I'll also start scaffolding the backend server code for you."));;
       addMessage (Draft.with_architecture newArch
         (Draft.plain ai ARCHITECTURE "Here is the interactive architecture diagram:"));;
       backendCode ← await (generateBackendCode newArch);
       addMessage (Draft.with_code backendCode "javascript"
         (Draft.plain ai CODE
            "I've generated the complete Node.js backend for your application. You can inspect the files below."));;
       addMessage (Draft.with_architecture newArch
         (Draft.plain ai APP_PREVIEW_PROMPT
            "Now that the core components are ready, I can generate a holistic UI preview for the entire application.")))
      (fun error =>
         let errorMessage := errorMessageOf error in
         addMessage (Draft.plain ai TEXT
           ("I hit a snag. " +:+ errorMessage +:+
            ". Could you try describing your app again?")))
      (update (setIsLoading false)).

(** Lines 101-133. *)
Definition handleRefactorRequest (apiKey : option string)
    (codeToRefactor : CodeMap) : Async unit :=
  if negb (truthy apiKey) then Ret tt
  else
    addMessage (Draft.plain ai TEXT
      "Understood. I'm now analyzing the generated code for potential improvements, like adding error handling and validation...");;
    update (setIsLoading true);;
    try_catch_finally
      ('(analysis, refactoredCode) ← await (analyzeAndRefactorCode codeToRefactor);
       addMessage (Draft.with_code refactoredCode "javascript"
         (Draft.plain ai REFACTOR_ANALYSIS analysis)))
      (fun error =>
         let errorMessage := errorMessageOf error in
         addMessage (Draft.plain ai TEXT
           ("I encountered an issue while trying to refactor the code. " +:+
            errorMessage +:+ ".")))
      (update (setIsLoading false)).

(** Lines 135-147. *)
Definition handleGeneratePreviewRequest (service : Microservice.t) : Async unit :=
  update (setPreviewData (PreviewData.mk (Microservice.name service) None true));;
  update (setPreviewModalOpen true);;
  try_catch
    (previewHtml ← await (generateFrontendPreview service);
     update (setPreviewData
       (PreviewData.mk (Microservice.name service) (Some previewHtml) false)))
    (fun error =>
       let errorMessage := errorMessageOf error in
       let errorHtml :=
         "<div class=" +:+ dq +:+ "p-8 text-center text-red-400" +:+ dq +:+
         "><h2 class=" +:+ dq +:+ "text-xl font-bold mb-2" +:+ dq +:+
         ">Preview Generation Failed</h2><p>" +:+ errorMessage +:+ "</p></div>" in
       update (setPreviewData
         (PreviewData.mk (Microservice.name service) (Some errorHtml) false))).

(** Lines 149-161. *)
Definition handleGenerateAppPreviewRequest (architecture : AppArchitecture.t)
    : Async unit :=
  update (setPreviewData
    (PreviewData.mk (AppArchitecture.name architecture +:+ " (App Preview)") None true));;
  update (setPreviewModalOpen true);;
  try_catch
    (previewHtml ← await (generateAppPreview architecture);
     update (setPreviewData
       (PreviewData.mk (AppArchitecture.name architecture +:+ " (App Preview)")
          (Some previewHtml) false)))
    (fun error =>
       let errorMessage := errorMessageOf error in
       let errorHtml :=
         "<div class=" +:+ dq +:+ "p-8 text-center text-red-400" +:+ dq +:+
         "><h2 class=" +:+ dq +:+ "text-xl font-bold mb-2" +:+ dq +:+
         ">App Preview Generation Failed</h2><p>" +:+ errorMessage +:+ "</p></div>" in
       update (setPreviewData
         (PreviewData.mk (AppArchitecture.name architecture +:+ " (App Preview)")
            (Some errorHtml) false))).

(** Line 181, [onClose] of the preview modal. *)
Definition onClose : Async unit := update (setPreviewModalOpen false).

(** ** Running a handler *)

(** How the generation service settles a call. *)
Definition Answer : Type := forall R : Type, GenCall R -> Outcome R.

Definition answerWith (arch : Outcome AppArchitecture.t) (files : Outcome CodeMap)
    (refactored : Outcome (string * CodeMap)) (html : Outcome string) : Answer :=
  fun R c =>
    match c in GenCall R return Outcome R with
    | generateInitialArchitecture _ => arch
    | generateBackendCode _ => files
    | analyzeAndRefactorCode _ => refactored
    | generateFrontendPreview _ => html
    | generateAppPreview _ => html
    end.

(** The world as a handler sees it, the number of clock readings taken so
    far, and the log of calls made to the generation service. *)
Record Machine := mkMachine {
  world : World;
  ticks : nat;
  calls : list Call }.

(** What one handler invocation runs against: [clock n] is the n-th reading
    of the wall clock, [settle n] is how the n-th call to the generation
    service settles, and [meanwhile n] is what the rest of the application
    does to the world while that call is pending. *)
Record Env := mkEnv {
  clock : nat -> string;
  settle : nat -> Answer;
  meanwhile : nat -> World -> World }.

(** One invocation, from the call of the handler to the settling of the
    promise it returns. *)
Fixpoint run {A : Type} (env : Env) (t : Async A) (m : Machine)
    : Machine * Outcome A :=
  match t with
  | Ret a => (m, Resolved a)
  | Throw e => (m, Rejected e)
  | Update f k => run env k (mkMachine (f (world m)) (ticks m) (calls m))
  | Clock k =>
      run env (k (clock env (ticks m)))
          (mkMachine (world m) (S (ticks m)) (calls m))
  | Await c k =>
      let n := length (calls m) in
      run env (k (settle env n _ c))
          (mkMachine (meanwhile env n (world m)) (ticks m) (calls m ++ [call c]))
  end.

(** Nothing else touches the chat history while a call is pending. *)
Definition quiet (env : Env) : Prop :=
  forall n w, chatHistory (meanwhile env n w) = chatHistory w.

(** ** The event loop *)

(** Where a synchronous segment stops: at the end of the handler, or at an
    [await]. *)
Inductive Paused (A : Type) : Type :=
| Finished (r : Outcome A)
| Blocked (R : Type) (c : GenCall R) (k : Outcome R -> Async A).
Arguments Finished {A} r.
Arguments Blocked {A R} c k.

Fixpoint exec {A : Type} (clock : nat -> string) (t : Async A) (w : World)
    (ticks : nat) : World * nat * Paused A :=
  match t with
  | Ret a => (w, ticks, Finished (Resolved a))
  | Throw e => (w, ticks, Finished (Rejected e))
  | Update f k => exec clock k (f w) ticks
  | Clock k => exec clock (k (clock ticks)) w (S ticks)
  | Await c k => (w, ticks, Blocked c k)
  end.

(** A handler suspended at an [await]. *)
Record Pending := mkPending {
  p_type : Type;
  p_call : GenCall p_type;
  p_resume : Outcome p_type -> Async unit }.
Arguments mkPending {p_type} p_call p_resume.

Record System := mkSystem {
  machine : Machine;
  inflight : list Pending }.

(** What the user interface can ask of the component.  A key submission
    comes with the way [initializeAi] takes the key and the way the
    browser takes the storage write. *)
Inductive Intent :=
| ApiKeySubmit (key : string) (initialized written : Outcome unit)
| SendMessage (message : string)
| RefactorRequest (codeToRefactor : CodeMap)
| GeneratePreview (service : Microservice.t)
| GenerateAppPreview (architecture : AppArchitecture.t)
| ClosePreview.

(** The callback behind each intent, as created by the last render. *)
Definition handler (w : World) (i : Intent) : Async unit :=
  match i with
  | ApiKeySubmit key initialized written =>
      handleApiKeySubmit (fun _ => initialized) written key
  | SendMessage message => handleSendMessage (apiKey w) message
  | RefactorRequest codeToRefactor => handleRefactorRequest (apiKey w) codeToRefactor
  | GeneratePreview service => handleGeneratePreviewRequest service
  | GenerateAppPreview architecture => handleGenerateAppPreviewRequest architecture
  | ClosePreview => onClose
  end.

(** Lines 163-187: without a key only the key modal is rendered, with a key
    only the chat panel and the preview modal. *)
Definition rendered (w : World) (i : Intent) : bool :=
  match i with
  | ApiKeySubmit _ _ _ => negb (truthy (apiKey w))
  | _ => truthy (apiKey w)
  end.

Inductive Event :=
| Intend (i : Intent)
| Settle (n : nat) (answer : Answer).

(** The system after a synchronous segment: a handler that stopped at an
    [await] has issued its call and joins the handlers in flight. *)
Definition land (m : Machine) (others : list Pending)
    (r : World * nat * Paused unit) : System :=
  match r with
  | (w, n, Finished _) => mkSystem (mkMachine w n (calls m)) others
  | (w, n, Blocked c k) =>
      mkSystem (mkMachine w n (calls m ++ [call c])) (others ++ [mkPending c k])
  end.

Definition dispatch (clock : nat -> string) (t : Async unit) (s : System) : System :=
  land (machine s) (inflight s)
       (exec clock t (world (machine s)) (ticks (machine s))).

Definition fire (clock : nat -> string) (ev : Event) (s : System) : System :=
  match ev with
  | Intend i => dispatch clock (handler (world (machine s)) i) s
  | Settle n answer =>
      match inflight s !! n with
      | Some p =>
          land (machine s) (delete n (inflight s))
               (exec clock (p_resume p (answer _ (p_call p)))
                     (world (machine s)) (ticks (machine s)))
      | None => s
      end
  end.

Definition offered (s : System) (ev : Event) : bool :=
  match ev with
  | Intend i => rendered (world (machine s)) i
  | Settle n _ => bool_decide (n < length (inflight s))
  end.

Definition step (clock : nat -> string) (s s' : System) : Prop :=
  exists ev, offered s ev = true /\ s' = fire clock ev s.

(** The component after mounting: initial state, then the mount effect,
    with the browser's answers to the storage read, to [initializeAi] and
    to the storage write.  When the effect throws, the state is still the
    initial one; React then takes the component down, so a real run makes
    no further step, while [reachable] below lets steps follow and so only
    covers more states. *)
Definition boot (clock : nat -> string) (loaded : string)
    (storage : gmap string string) (readable initialized written : Outcome unit)
    : System :=
  dispatch clock (useEffect (fun _ => initialized) written readable storage)
           (mkSystem (mkMachine (initialWorld loaded storage) 0 []) []).

Inductive reachable (clock : nat -> string) (loaded : string) : System -> Prop :=
| reachable_boot storage readable initialized written :
    reachable clock loaded (boot clock loaded storage readable initialized written)
| reachable_step s s' :
    reachable clock loaded s -> step clock s s' -> reachable clock loaded s'.

(** * Definitions for the statements *)

(** ** The entries of the pipelines, for the statements below *)

(** [stampAll ds at_]: the drafts [ds] as chat entries, the i-th stamped
    with the clock reading [at_ i]. *)
Definition stampAll (ds : list Draft.t) (at_ : nat -> string) : list ChatMessage.t :=
  imap (fun i d => stamp d (at_ i)) ds.

Definition userEntry (message : string) : Draft.t :=
  Draft.plain user TEXT message.

Definition summaryEntry (newArch : AppArchitecture.t) : Draft.t :=
  Draft.plain ai TEXT
    ("Excellent. I've analyzed your vision for " +:+ dq +:+
     AppArchitecture.name newArch +:+ dq +:+
     " and generated the initial architecture. I'll also start scaffolding the backend server code for you.").

Definition architectureEntry (newArch : AppArchitecture.t) : Draft.t :=
  Draft.mk ai ARCHITECTURE "Here is the interactive architecture diagram:"
    None (Some newArch) None None.



Definition snagEntry (error : Thrown) : Draft.t :=
  Draft.plain ai TEXT
    ("I hit a snag. " +:+ errorMessageOf error +:+
     ". Could you try describing your app again?").

Definition keyPromptEntry : Draft.t :=
  Draft.plain ai TEXT "Please set your API key before we begin.".

Definition analyzingEntry : Draft.t :=
  Draft.plain ai TEXT
    "Understood. I'm now analyzing the generated code for potential improvements, like adding error handling and validation...".

Definition refactorAnalysisEntry (analysis : string) (refactoredCode : CodeMap)
    : Draft.t :=
  Draft.mk ai REFACTOR_ANALYSIS analysis None None (Some refactoredCode)
    (Some "javascript").

Definition refactorIssueEntry (error : Thrown) : Draft.t :=
  Draft.plain ai TEXT
    ("I encountered an issue while trying to refactor the code. " +:+
     errorMessageOf error +:+ ".").

(** The author, type and payload of an entry, without text and time. *)
Definition shape (x : ChatMessage.t)
    : MessageAuthor * MessageType * option AppArchitecture.t * option CodeMap :=
  (ChatMessage.author x, ChatMessage.type x,
   ChatMessage.architecture x, ChatMessage.code x).

(** ** Predicates on entries, operations and states *)

Definition isRefactorAnalysis (x : ChatMessage.t) : bool :=
  match ChatMessage.type x with REFACTOR_ANALYSIS => true | _ => false end.

Fixpoint startsWith (p s : string) : bool :=
  match p, s with
  | EmptyString, _ => true
  | String a p', String b s' => Ascii.eqb a b && startsWith p' s'
  | String _ _, EmptyString => false
  end.

(** A TEXT entry whose text starts as the diagnostic of the refactor
    pipeline does. *)
Definition isRefactorIssue (x : ChatMessage.t) : bool :=
  match ChatMessage.type x with
  | TEXT =>
      startsWith "I encountered an issue while trying to refactor the code. "
                 (ChatMessage.content x)
  | _ => false
  end.

(** What is asked of an operation invoked without an active key: one
    ai/TEXT entry is appended and the generation service is not called. *)
Definition asksForKey (env : Env) (m : Machine) (i : Intent) : Prop :=
  (exists x,
     chatHistory (world (run env (handler (world m) i) m).1)
       = chatHistory (world m) ++ [x]
     /\ ChatMessage.author x = ai /\ ChatMessage.type x = TEXT)
  /\ calls (run env (handler (world m) i) m).1 = calls m.

(** The two preview entry points, side by side. *)
Inductive PreviewRequest :=
| ServicePreview (service : Microservice.t)
| AppPreview (architecture : AppArchitecture.t).

Definition previewIntent (r : PreviewRequest) : Intent :=
  match r with
  | ServicePreview service => GeneratePreview service
  | AppPreview architecture => GenerateAppPreview architecture
  end.

Definition previewCall (r : PreviewRequest) : GenCall string :=
  match r with
  | ServicePreview service => generateFrontendPreview service
  | AppPreview architecture => generateAppPreview architecture
  end.

Definition previewName (r : PreviewRequest) : string :=
  match r with
  | ServicePreview service => Microservice.name service
  | AppPreview architecture => AppArchitecture.name architecture +:+ " (App Preview)"
  end.

(** The HTML shown once the call of request [r] has settled as [o]. *)
Definition previewShown (r : PreviewRequest) (o : Outcome string) : string :=
  match o with
  | Resolved previewHtml => previewHtml
  | Rejected error =>
      "<div class=" +:+ dq +:+ "p-8 text-center text-red-400" +:+ dq +:+
      "><h2 class=" +:+ dq +:+ "text-xl font-bold mb-2" +:+ dq +:+ ">" +:+
      match r with
      | ServicePreview _ => "Preview Generation Failed"
      | AppPreview _ => "App Preview Generation Failed"
      end +:+ "</h2><p>" +:+ errorMessageOf error +:+ "</p></div>"
  end.

Definition previewOf (s : System) : PreviewData.t := previewData (world (machine s)).

Definition historyOf (s : System) : list ChatMessage.t :=
  chatHistory (world (machine s)).

(** The entry [x] holds every field of the message [message] as given. *)
Definition carries (message : Draft.t) (x : ChatMessage.t) : Prop :=
  ChatMessage.author x = Draft.author message
  /\ ChatMessage.type x = Draft.type message
  /\ ChatMessage.content x = Draft.content message
  /\ ChatMessage.suggestionContext x = Draft.suggestionContext message
  /\ ChatMessage.architecture x = Draft.architecture message
  /\ ChatMessage.code x = Draft.code message
  /\ ChatMessage.codeLanguage x = Draft.codeLanguage message.

(** A sequence of append operations. *)
Definition addMessages (messages : list Draft.t) : Async unit :=
  foldr (fun message rest => addMessage message;; rest) (Ret tt) messages.

(** [respects R t]: every state update of the handler [t] moves the world
    along the relation [R]. *)
Inductive respects (R : relation World) {A : Type} : Async A -> Prop :=
| respects_Ret a : respects R (Ret a)
| respects_Throw e : respects R (Throw e)
| respects_Update f k :
    (forall w, R w (f w)) -> respects R k -> respects R (Update f k)
| respects_Clock k : (forall now, respects R (k now)) -> respects R (Clock k)
| respects_Await X (c : GenCall X) k :
    (forall o, respects R (k o)) -> respects R (Await c k).

(** Every handler in flight respects [R]. *)
Definition respectful (R : relation World) (s : System) : Prop :=
  Forall (fun p => forall o, respects R (p_resume p o)) (inflight s).

(** The chat history of [w'] starts with that of [w]. *)
Definition extends (w w' : World) : Prop :=
  chatHistory w `prefix_of` chatHistory w'.

(** ** Further predicates on worlds, entries and handlers *)

(** The key under which the session key is kept in [sessionStorage]. *)
Definition storedKeyName : string := "gemini-api-key".

(** The world a key submission leaves, by the answers it gets. *)
Definition submitted (key : string) (initialized written : Outcome unit)
    (w : World) : World :=
  match initialized, written with
  | Resolved _, Resolved _ => setApiKey (Some key) (setItem storedKeyName key w)
  | _, _ =>
      alert "Failed to initialize with that API Key. Please check the key and try again."
            w
  end.

(** The optional fields an entry carries fit its type: the payload the
    chat panel reads for that type is there, and nothing else is. *)
Definition wellFormed (x : ChatMessage.t) : Prop :=
  ChatMessage.suggestionContext x = None
  /\ match ChatMessage.type x with
     | TEXT =>
         ChatMessage.architecture x = None /\ ChatMessage.code x = None
         /\ ChatMessage.codeLanguage x = None
     | ARCHITECTURE | APP_PREVIEW_PROMPT =>
         ChatMessage.author x = ai
         /\ is_Some (ChatMessage.architecture x) /\ ChatMessage.code x = None
         /\ ChatMessage.codeLanguage x = None
     | CODE | REFACTOR_ANALYSIS =>
         ChatMessage.author x = ai
         /\ ChatMessage.architecture x = None /\ is_Some (ChatMessage.code x)
         /\ ChatMessage.codeLanguage x = Some "javascript"
     | SUGGESTION => False
     end.

(** The chat history of [w'] is that of [w] followed by entries that all
    satisfy [P]. *)
Definition grows (P : ChatMessage.t -> Prop) (w w' : World) : Prop :=
  exists added, chatHistory w' = chatHistory w ++ added /\ Forall P added.

(** The key holder and the alert box are as they were. *)
Definition keyFrame (w w' : World) : Prop :=
  apiKey w' = apiKey w
  /\ sessionStorage w' = sessionStorage w
  /\ alerts w' = alerts w.

(** The loading flag of the pipelines is as it was. *)
Definition loadFrame (w w' : World) : Prop := isLoading w' = isLoading w.

(** The three forms of the preview state: never requested, loading, and
    settled with content. *)
Definition previewShape (p : PreviewData.t) : Prop :=
  p = PreviewData.mk EmptyString None false
  \/ (exists name, p = PreviewData.mk name None true)
  \/ (exists name html, p = PreviewData.mk name (Some html) false).

(** From [w] to [w'] the preview state reaches or keeps one of its forms. *)
Definition previewKept (w w' : World) : Prop :=
  previewShape (previewData w) -> previewShape (previewData w').

(** [clearing t]: on every path through the handler [t], the last state
    update before the handler ends sets [isLoading] to false. *)
Inductive clearing {A : Type} : Async A -> Prop :=
| clearing_Ret f a : (forall w, isLoading (f w) = false) -> clearing (Update f (Ret a))
| clearing_Throw f e : (forall w, isLoading (f w) = false) -> clearing (Update f (Throw e))
| clearing_Update f k : clearing k -> clearing (Update f k)
| clearing_Clock k : (forall now, clearing (k now)) -> clearing (Clock k)
| clearing_Await X (c : GenCall X) k :
    (forall o, clearing (k o)) -> clearing (Await c k).

(** A handler in flight either ends by lowering the loading flag or never
    touches it. *)
Definition loadKind (p : Pending) : Prop :=
  (forall o, clearing (p_resume p o)) \/ (forall o, respects loadFrame (p_resume p o)).

(** The flag is up only while a clearing handler is in flight. *)
Definition flagCovered (isLoading : bool) (pending : list Pending) : Prop :=
  isLoading = true ->
  exists j p, pending !! j = Some p /\ forall o, clearing (p_resume p o).

(** Nothing has happened yet apart from key submissions. *)
Definition pristine (loaded : string) (s : System) : Prop :=
  historyOf s = INITIAL_CHAT_MESSAGES loaded
  /\ isLoading (world (machine s)) = false
  /\ isPreviewModalOpen (world (machine s)) = false
  /\ previewOf s = PreviewData.mk EmptyString None false
  /\ calls (machine s) = []
  /\ inflight s = [].

(** ** Sample data *)

(** Concrete data for the instances below. *)
Module Sample.
Definition users : Microservice.t :=
  Microservice.mk "svc_users" "User Service" "Accounts and sessions"
    [ApiEndpoint.mk "GET" "/users" "List the users"].

Definition orders : Microservice.t :=
  Microservice.mk "svc_orders" "Order Service" "Orders"
    [ApiEndpoint.mk "POST" "/orders" "Place an order"].

Definition planto : AppArchitecture.t :=
  AppArchitecture.mk "Planto API" "A plant shop" [users; orders]
    [DataStore.mk "db_main" "Main database" PostgreSQL "users, orders"].

Definition files : CodeMap := {[ "server.js" := "const express = require('express');" ]}.

Definition quota : Thrown := ErrorObject "Quota exceeded".

Definition everyMinute (n : nat) : string :=
  "09:4" +:+ String (Ascii.ascii_of_nat (48 + n mod 10)) EmptyString +:+ " AM".

(** A service on which every call succeeds, one on which code generation
    fails, and one on which every call fails. *)
Definition good : Env :=
  mkEnv everyMinute
    (fun _ => answerWith (Resolved planto) (Resolved files)
                (Resolved ("Added input validation.", files))
                (Resolved "<main>ok</main>"))
    (fun _ w => w).

Definition noCode : Env :=
  mkEnv everyMinute
    (fun _ => answerWith (Resolved planto) (Rejected quota)
                (Rejected quota) (Rejected quota))
    (fun _ w => w).

Definition down : Env :=
  mkEnv everyMinute
    (fun _ => answerWith (Rejected quota) (Rejected quota)
                (Rejected NotAnError) (Rejected quota))
    (fun _ w => w).

(** The component just after mounting in a fresh tab, and after a key was
    accepted. *)
Definition keyless : Machine :=
  mkMachine (initialWorld "09:39 AM" ∅) 0 [].

Definition keyed : Machine :=
  mkMachine (setApiKey (Some "demo-key") (initialWorld "09:39 AM" ∅)) 0 [].

(** The application after mounting in a fresh tab and accepting a key. *)
Definition started : System :=
  fire everyMinute (Intend (ApiKeySubmit "demo-key" (Resolved tt) (Resolved tt)))
       (boot everyMinute "09:39 AM" ∅ (Resolved tt) (Resolved tt) (Resolved tt)).

(** Two service previews requested in a row; the call of the second
    resolves first, the call of the first resolves last. *)
Definition says (html : string) : Answer :=
  answerWith (Rejected NotAnError) (Rejected NotAnError) (Rejected NotAnError)
             (Resolved html).

Definition usersAsked : System :=
  fire everyMinute (Intend (GeneratePreview users)) started.

Definition ordersAsked : System :=
  fire everyMinute (Intend (GeneratePreview orders)) usersAsked.

Definition ordersShown : System :=
  fire everyMinute (Settle 1 (says "<h1>Orders</h1>")) ordersAsked.

Definition usersLate : System :=
  fire everyMinute (Settle 0 (says "<h1>Users</h1>")) ordersShown.
End Sample.

(** * Properties *)

(** ** Equations of [run] *)

Section RunEquations.
Context (env : Env).

Lemma run_bind {A B} (t : Async A) (f : A -> Async B) m :
  run env (t ≫= f) m =
  match run env t m with
  | (m', Resolved a) => run env (f a) m'
  | (m', Rejected e) => (m', Rejected e)
  end.
Proof.
  change (t ≫= f) with (bind t f).
  revert m; induction t as [a|e|g k IH|k IH|R c k IH]; intros m; cbn; auto.
Qed.

Lemma run_try_catch {A} (t : Async A) h m :
  run env (try_catch t h) m =
  match run env t m with
  | (m', Resolved a) => (m', Resolved a)
  | (m', Rejected e) => run env (h e) m'
  end.
Proof.
  revert m; induction t as [a|e|g k IH|k IH|R c k IH]; intros m; cbn; auto.
Qed.

Lemma run_try_finally {A} (t : Async A) fin m :
  run env (try_finally t fin) m =
  match run env t m with
  | (m', r) =>
      match run env fin m' with
      | (m'', Resolved _) => (m'', r)
      | (m'', Rejected e) => (m'', Rejected e)
      end
  end.
Proof.
  revert m; induction t as [a|e|g k IH|k IH|R c k IH]; intros m; cbn; auto.
  - change (bind fin (fun _ => Ret a)) with (fin ≫= (fun _ => Ret a)).
    rewrite run_bind. destruct (run env fin m) as [m' [[]|e]]; reflexivity.
  - change (bind fin (fun _ => Throw e)) with (fin ≫= (fun _ : unit => @Throw A e)).
    rewrite run_bind. destruct (run env fin m) as [m' [[]|e']]; reflexivity.
Qed.

Lemma run_update f m :
  run env (update f) m = (mkMachine (f (world m)) (ticks m) (calls m), Resolved tt).
Proof. reflexivity. Qed.

Lemma run_await {R} (c : GenCall R) m :
  run env (await c) m =
  (mkMachine (meanwhile env (length (calls m)) (world m)) (ticks m)
             (calls m ++ [call c]),
   settle env (length (calls m)) R c).
Proof. cbn. destruct (settle env (length (calls m)) R c); reflexivity. Qed.

Lemma run_addMessage message m :
  run env (addMessage message) m =
  (mkMachine
     (setChatHistory (fun prev => prev ++ [stamp message (clock env (ticks m))])
                     (world m))
     (S (ticks m)) (calls m),
   Resolved tt).
Proof. reflexivity. Qed.
End RunEquations.

(** ** What each setter leaves alone *)

Lemma chatHistory_setChatHistory f w :
  chatHistory (setChatHistory f w) = f (chatHistory w).
Proof. reflexivity. Qed.
Lemma chatHistory_setIsLoading b w : chatHistory (setIsLoading b w) = chatHistory w.
Proof. reflexivity. Qed.
Lemma chatHistory_setApiKey k w : chatHistory (setApiKey k w) = chatHistory w.
Proof. reflexivity. Qed.
Lemma chatHistory_setPreviewModalOpen b w :
  chatHistory (setPreviewModalOpen b w) = chatHistory w.
Proof. reflexivity. Qed.
Lemma chatHistory_setPreviewData p w : chatHistory (setPreviewData p w) = chatHistory w.
Proof. reflexivity. Qed.
Lemma chatHistory_setItem k v w : chatHistory (setItem k v w) = chatHistory w.
Proof. reflexivity. Qed.
Lemma chatHistory_alert text w : chatHistory (alert text w) = chatHistory w.
Proof. reflexivity. Qed.
Lemma isLoading_setIsLoading b w : isLoading (setIsLoading b w) = b.
Proof. reflexivity. Qed.
Lemma isLoading_setChatHistory f w : isLoading (setChatHistory f w) = isLoading w.
Proof. reflexivity. Qed.

Create Rewrite HintDb world.
#[global] Hint Rewrite chatHistory_setChatHistory chatHistory_setIsLoading
  chatHistory_setApiKey chatHistory_setPreviewModalOpen chatHistory_setPreviewData
  chatHistory_setItem chatHistory_alert isLoading_setIsLoading
  isLoading_setChatHistory : world.

Ltac case_settle :=
  match goal with
  | |- context [settle ?env ?n ?R ?c] => destruct (settle env n R c) as [?|?]
  end.

Ltac run_steps :=
  repeat first
    [ rewrite run_bind | rewrite run_try_catch | rewrite run_try_finally
    | rewrite run_addMessage | rewrite run_update | rewrite run_await ];
  cbn [world ticks calls chatHistory isLoading apiKey setChatHistory setIsLoading
       length].

(** ** The build pipeline *)



(** C2: with an active key, the architecture call succeeding and the
    backend-code call failing, one invocation of [handleSendMessage] appends
    exactly four entries: user/TEXT, ai/TEXT (summary), ai/ARCHITECTURE,
    ai/TEXT (diagnostic); none of them is a CODE or APP_PREVIEW_PROMPT
    entry, and [isLoading] is false afterwards. *)
Theorem build_pipeline_code_failure env m key message newArch error :
  truthy key = true ->
  quiet env ->
  settle env (length (calls m)) _ (generateInitialArchitecture message)
    = Resolved newArch ->
  settle env (S (length (calls m))) _ (generateBackendCode newArch)
    = Rejected error ->
  let entries :=
    stampAll [ userEntry message; summaryEntry newArch; architectureEntry newArch;
               snagEntry error ]
             (fun i => clock env (i + ticks m)) in
  let end_ := run env (handleSendMessage key message) m in
  chatHistory (world end_.1) = chatHistory (world m) ++ entries
  /\ map shape entries =
       [ (user, TEXT, None, None);
         (ai, TEXT, None, None);
         (ai, ARCHITECTURE, Some newArch, None);
         (ai, TEXT, None, None) ]
  /\ Forall (fun x => ChatMessage.type x <> CODE
                      /\ ChatMessage.type x <> APP_PREVIEW_PROMPT) entries
  /\ isLoading (world end_.1) = false
  /\ end_.2 = Resolved tt.
Proof.
  intros Hkey Hquiet Harch Hcode entries end_.
  subst entries end_. unfold handleSendMessage, try_catch_finally.
  rewrite Hkey. cbn [negb].
  run_steps. rewrite Harch. run_steps.
  rewrite length_app. cbn [length]. rewrite Nat.add_1_r, Hcode. run_steps.
  cbn [fst snd world calls].
  repeat (autorewrite with world; rewrite ?Hquiet).
  rewrite <- !app_assoc. repeat split; try reflexivity.
  repeat constructor; discriminate.
Qed.

Lemma build_pipeline_code_failure_witness :
  ChatMessage.type <$>
    chatHistory (world (run Sample.noCode
      (handleSendMessage (Some "demo-key") "a plant shop") Sample.keyed).1) =
    [TEXT; TEXT; TEXT; ARCHITECTURE; TEXT]
  /\ ChatMessage.content <$>
       last (chatHistory (world (run Sample.noCode
         (handleSendMessage (Some "demo-key") "a plant shop") Sample.keyed).1)) =
       Some "I hit a snag. Quota exceeded. Could you try describing your app again?"
  /\ isLoading (world (run Sample.noCode
        (handleSendMessage (Some "demo-key") "a plant shop") Sample.keyed).1) = false.
Proof.
  destruct (build_pipeline_code_failure Sample.noCode Sample.keyed (Some "demo-key")
              "a plant shop" Sample.planto Sample.quota)
    as (Hhist & _ & _ & Hload & _);
    [reflexivity | intros n w; reflexivity | reflexivity | reflexivity |].
  cbv zeta. rewrite Hhist, Hload. repeat split; reflexivity.
Defined.

(** C9: without an active key, [handleSendMessage] records nothing of the
    input: the one entry it appends is the ai/TEXT request for a key, no
    entry authored by the user is added, no call is made and the loading
    flag is not touched. *)
Theorem build_pipeline_without_key env m key message :
  truthy key = false ->
  let end_ := run env (handleSendMessage key message) m in
  chatHistory (world end_.1) =
    chatHistory (world m) ++ [stamp keyPromptEntry (clock env (ticks m))]
  /\ (forall x, x ∈ chatHistory (world end_.1) ->
        x ∈ chatHistory (world m) \/ ChatMessage.author x = ai)
  /\ (forall t, stamp (userEntry message) t ∈ chatHistory (world end_.1) ->
        stamp (userEntry message) t ∈ chatHistory (world m))
  /\ calls end_.1 = calls m
  /\ isLoading (world end_.1) = isLoading (world m)
  /\ end_.2 = Resolved tt.
Proof.
  intros Hkey end_. subst end_. unfold handleSendMessage. rewrite Hkey.
  cbn [negb]. rewrite run_addMessage. cbn [fst snd world calls].
  autorewrite with world.
  split; [reflexivity|]. split; [|split].
  - intros x [Hx | Hx%list_elem_of_singleton]%elem_of_app; [by left|].
    right. by subst x.
  - intros t [Hx | Hx%list_elem_of_singleton]%elem_of_app; [done|].
    discriminate Hx.
  - repeat split; reflexivity.
Qed.

Lemma build_pipeline_without_key_witness :
  ChatMessage.content <$>
    chatHistory (world (run Sample.good (handleSendMessage None "a plant shop")
                            Sample.keyless).1) =
  [ "Welcome! I'm your AI development partner. Describe the app you want to build, and I'll generate the architecture, code, and UI previews for you.";
    "Please set your API key before we begin." ].
Proof.
  destruct (build_pipeline_without_key Sample.good Sample.keyless None
              "a plant shop") as (Hhist & _); [reflexivity|].
  rewrite Hhist. reflexivity.
Defined.

(** C6: an invocation of the build pipeline or of the refactor pipeline
    that enters the loading state (the key is active, so the flag is true
    when the handler first suspends) ends with [isLoading] false, however
    its calls settle and whatever else happens to the state meanwhile. *)
Theorem loading_released env m key :
  truthy key = true ->
  (forall message,
     isLoading (exec (clock env) (handleSendMessage key message)
                     (world m) (ticks m)).1.1 = true
     /\ isLoading (world (run env (handleSendMessage key message) m).1) = false
     /\ (run env (handleSendMessage key message) m).2 = Resolved tt)
  /\ (forall codeToRefactor,
     isLoading (exec (clock env) (handleRefactorRequest key codeToRefactor)
                     (world m) (ticks m)).1.1 = true
     /\ isLoading (world (run env (handleRefactorRequest key codeToRefactor) m).1) = false
     /\ (run env (handleRefactorRequest key codeToRefactor) m).2 = Resolved tt).
Proof.
  intros Hkey. split.
  - intros message. unfold handleSendMessage, try_catch_finally.
    rewrite Hkey. cbn [negb]. split; [reflexivity|].
    run_steps.
    destruct (settle env (length (calls m)) _ (generateInitialArchitecture message))
      as [newArch|e]; run_steps; [|split; reflexivity].
    match goal with
    | |- context [settle env ?n ?R ?c] => destruct (settle env n R c) as [files|e]
    end; run_steps; split; reflexivity.
  - intros codeToRefactor. unfold handleRefactorRequest, try_catch_finally.
    rewrite Hkey. cbn [negb]. split; [reflexivity|].
    run_steps.
    destruct (settle env (length (calls m)) _ (analyzeAndRefactorCode codeToRefactor))
      as [[analysis refactoredCode]|e]; run_steps; split; reflexivity.
Qed.

Lemma loading_released_witness :
  isLoading (world (run Sample.down
    (handleSendMessage (Some "demo-key") "a plant shop") Sample.keyed).1) = false
  /\ isLoading (world (run Sample.good
    (handleRefactorRequest (Some "demo-key") Sample.files) Sample.keyed).1) = false.
Proof.
  split.
  - apply (loading_released Sample.down Sample.keyed (Some "demo-key") eq_refl).
  - apply (loading_released Sample.good Sample.keyed (Some "demo-key") eq_refl).
Defined.

(** ** Key submission *)

(** C7: a key submission on which [initializeAi] throws leaves the key
    holder as it was: [apiKey], the [sessionStorage] and hence the answer
    of the activity test are those from before the submission; only the
    alert is raised. *)
Theorem failed_key_submission env m initializeAi written key error :
  initializeAi key = Rejected error ->
  let end_ := run env (handleApiKeySubmit initializeAi written key) m in
  apiKey (world end_.1) = apiKey (world m)
  /\ sessionStorage (world end_.1) = sessionStorage (world m)
  /\ truthy (apiKey (world end_.1)) = truthy (apiKey (world m))
  /\ world end_.1 =
       alert "Failed to initialize with that API Key. Please check the key and try again."
             (world m)
  /\ end_.2 = Resolved tt.
Proof.
  intros Hinit end_. subst end_. unfold handleApiKeySubmit.
  rewrite Hinit. repeat split; reflexivity.
Qed.

Lemma failed_key_submission_witness :
  apiKey (world (run Sample.good
    (handleApiKeySubmit (fun _ => Rejected Sample.quota) (Resolved tt) "bad-key")
    Sample.keyed).1)
  = Some "demo-key".
Proof.
  destruct (failed_key_submission Sample.good Sample.keyed
              (fun _ => Rejected Sample.quota) (Resolved tt) "bad-key"
              Sample.quota eq_refl)
    as (Hkey & _).
  rewrite Hkey. reflexivity.
Defined.

(** ** The refactor pipeline *)

(** C8: with an active key, one invocation of [handleRefactorRequest] on
    any code map makes exactly one call to the generation service and,
    after the notice that the analysis has started, appends exactly one
    entry: the ai/REFACTOR_ANALYSIS entry when the call succeeds, the
    ai/TEXT diagnostic when it fails. *)
Theorem refactor_pipeline env m key codeToRefactor :
  truthy key = true ->
  quiet env ->
  let end_ := run env (handleRefactorRequest key codeToRefactor) m in
  let result :=
    match settle env (length (calls m)) _ (analyzeAndRefactorCode codeToRefactor) with
    | Resolved (analysis, refactoredCode) =>
        refactorAnalysisEntry analysis refactoredCode
    | Rejected error => refactorIssueEntry error
    end in
  let entries := stampAll [analyzingEntry; result] (fun i => clock env (i + ticks m)) in
  calls end_.1 = calls m ++ [call (analyzeAndRefactorCode codeToRefactor)]
  /\ chatHistory (world end_.1) = chatHistory (world m) ++ entries
  /\ length (List.filter isRefactorAnalysis entries)
     + length (List.filter isRefactorIssue entries) = 1
  /\ end_.2 = Resolved tt.
Proof.
  intros Hkey Hquiet end_ result entries. subst end_ result entries.
  unfold handleRefactorRequest, try_catch_finally.
  rewrite Hkey. cbn [negb]. run_steps.
  destruct (settle env (length (calls m)) _ (analyzeAndRefactorCode codeToRefactor))
    as [[analysis refactoredCode]|error]; run_steps; cbn [fst snd world calls];
    repeat (autorewrite with world; rewrite ?Hquiet);
    rewrite <- !app_assoc; repeat split; reflexivity.
Qed.

Lemma refactor_pipeline_witness :
  calls (run Sample.down (handleRefactorRequest (Some "demo-key") ∅) Sample.keyed).1
    = [call (analyzeAndRefactorCode ∅)]
  /\ ChatMessage.content <$>
       chatHistory (world (run Sample.down
         (handleRefactorRequest (Some "demo-key") ∅) Sample.keyed).1) =
     [ "Welcome! I'm your AI development partner. Describe the app you want to build, and I'll generate the architecture, code, and UI previews for you.";
       "Understood. I'm now analyzing the generated code for potential improvements, like adding error handling and validation...";
       "I encountered an issue while trying to refactor the code. An unknown error occurred.." ].
Proof.
  destruct (refactor_pipeline Sample.down Sample.keyed (Some "demo-key") ∅)
    as (Hcalls & Hhist & _); [reflexivity | intros n w; reflexivity |].
  rewrite Hcalls, Hhist. split; reflexivity.
Defined.

(** ** The key check of the four generating operations *)

(** C3, as stated, fails: without a key the refactor pipeline appends
    nothing, and both preview operations call the generation service. *)
Lemma key_prompt_only_in_build_pipeline :
  truthy (apiKey (world Sample.keyless)) = false
  /\ ~ asksForKey Sample.good Sample.keyless (RefactorRequest Sample.files)
  /\ ~ asksForKey Sample.good Sample.keyless (GeneratePreview Sample.users)
  /\ ~ asksForKey Sample.good Sample.keyless (GenerateAppPreview Sample.planto).
Proof.
  split; [reflexivity|]. repeat split.
  - intros [(x & Hx & _) _]. apply (f_equal length) in Hx. discriminate Hx.
  - intros [_ Hcalls]. discriminate Hcalls.
  - intros [_ Hcalls]. discriminate Hcalls.
Qed.

(** C3, amended: without an active key the build pipeline appends the
    ai/TEXT request for a key and returns without a call; the refactor
    pipeline returns at once, leaving the state as it is and making no
    call; the two preview operations test no key and issue their call. *)
Theorem key_guard env m :
  truthy (apiKey (world m)) = false ->
  (forall message,
     asksForKey env m (SendMessage message)
     /\ chatHistory (world (run env (handler (world m) (SendMessage message)) m).1)
        = chatHistory (world m) ++ [stamp keyPromptEntry (clock env (ticks m))])
  /\ (forall codeToRefactor,
        run env (handler (world m) (RefactorRequest codeToRefactor)) m
        = (m, Resolved tt))
  /\ (forall service,
        calls (run env (handler (world m) (GeneratePreview service)) m).1
        = calls m ++ [call (generateFrontendPreview service)])
  /\ (forall architecture,
        calls (run env (handler (world m) (GenerateAppPreview architecture)) m).1
        = calls m ++ [call (generateAppPreview architecture)]).
Proof.
  intros Hkey. repeat split.
  - eexists. cbn [handler]. unfold handleSendMessage. rewrite Hkey. cbn [negb].
    rewrite run_addMessage. cbn [fst world]. autorewrite with world.
    split; [reflexivity|]. split; reflexivity.
  - cbn [handler]. unfold handleSendMessage. rewrite Hkey. reflexivity.
  - cbn [handler]. unfold handleSendMessage. rewrite Hkey. reflexivity.
  - cbn [handler]. unfold handleRefactorRequest. rewrite Hkey. reflexivity.
  - intros service. cbn [handler]. unfold handleGeneratePreviewRequest.
    run_steps. case_settle; reflexivity.
  - intros architecture. cbn [handler]. unfold handleGenerateAppPreviewRequest.
    run_steps. case_settle; reflexivity.
Qed.

Lemma key_guard_witness :
  run Sample.good (handleRefactorRequest None Sample.files) Sample.keyless
    = (Sample.keyless, Resolved tt)
  /\ calls (run Sample.good (handleGeneratePreviewRequest Sample.users)
                Sample.keyless).1
     = [call (generateFrontendPreview Sample.users)].
Proof.
  destruct (key_guard Sample.good Sample.keyless eq_refl) as (_ & Hr & Hp & _).
  split; [apply (Hr Sample.files) | apply (Hp Sample.users)].
Defined.

(** ** Preview requests in the event loop *)

Lemma fire_settle_middle clock s before p after answer :
  inflight s = before ++ p :: after ->
  fire clock (Settle (length before) answer) s =
  land (machine s) (before ++ after)
       (exec clock (p_resume p (answer _ (p_call p)))
             (world (machine s)) (ticks (machine s))).
Proof.
  intros Hin. unfold fire. rewrite Hin, list_lookup_middle by reflexivity.
  by rewrite delete_middle.
Qed.

(** A preview request sets the loading state, opens the modal, issues its
    call and suspends; when resumed it writes its own name and its own
    result. *)
Lemma fire_preview_request clock r s :
  exists k,
    fire clock (Intend (previewIntent r)) s =
      mkSystem
        (mkMachine
           (setPreviewModalOpen true
              (setPreviewData (PreviewData.mk (previewName r) None true)
                 (world (machine s))))
           (ticks (machine s))
           (calls (machine s) ++ [call (previewCall r)]))
        (inflight s ++ [mkPending (previewCall r) k])
    /\ forall o w n,
         exec clock (k o) w n =
         (setPreviewData (PreviewData.mk (previewName r) (Some (previewShown r o)) false) w,
          n, Finished (Resolved tt)).
Proof.
  destruct r as [service|architecture]; eexists; (split; [reflexivity|]);
    intros [html|error] w n; reflexivity.
Qed.

(** C4, as stated, fails: with a key accepted, the user asks for the
    preview of one service and, while it loads, of another; the second call
    resolves, then the first, and the result of the first replaces the
    state of the newer request. *)
Lemma late_preview_overwrites_newer :
  step Sample.everyMinute Sample.started Sample.usersAsked
  /\ step Sample.everyMinute Sample.usersAsked Sample.ordersAsked
  /\ step Sample.everyMinute Sample.ordersAsked Sample.ordersShown
  /\ step Sample.everyMinute Sample.ordersShown Sample.usersLate
  /\ previewOf Sample.usersAsked = PreviewData.mk "User Service" None true
  /\ previewOf Sample.ordersAsked = PreviewData.mk "Order Service" None true
  /\ previewOf Sample.ordersShown =
       PreviewData.mk "Order Service" (Some "<h1>Orders</h1>") false
  /\ previewOf Sample.usersLate =
       PreviewData.mk "User Service" (Some "<h1>Users</h1>") false
  /\ previewOf Sample.usersLate <> previewOf Sample.ordersShown.
Proof.
  split; [exists (Intend (GeneratePreview Sample.users)); split; reflexivity|].
  split; [exists (Intend (GeneratePreview Sample.orders)); split; reflexivity|].
  split; [exists (Settle 1 (Sample.says "<h1>Orders</h1>")); split; reflexivity|].
  split; [exists (Settle 0 (Sample.says "<h1>Users</h1>")); split; reflexivity|].
  repeat split; try reflexivity. discriminate.
Qed.

(** C4, amended: a second preview request issued while a first is loading
    at once resets the preview state to the new name, loading, no HTML; a
    call that settles afterwards, whichever request it belongs to, writes
    the name and the result of its own request over the preview state, so
    the state shows the request whose call settled last. *)
Theorem preview_last_settled_wins clock s r1 r2 (a1 a2 : Answer) :
  let n := length (inflight s) in
  let s1 := fire clock (Intend (previewIntent r1)) s in
  let s2 := fire clock (Intend (previewIntent r2)) s1 in
  let s3 := fire clock (Settle (S n) a2) s2 in
  let s4 := fire clock (Settle n a1) s3 in
  let s3' := fire clock (Settle n a1) s2 in
  previewOf s1 = PreviewData.mk (previewName r1) None true
  /\ previewOf s2 = PreviewData.mk (previewName r2) None true
  /\ previewOf s3 =
       PreviewData.mk (previewName r2)
         (Some (previewShown r2 (a2 _ (previewCall r2)))) false
  /\ previewOf s4 =
       PreviewData.mk (previewName r1)
         (Some (previewShown r1 (a1 _ (previewCall r1)))) false
  /\ previewOf s3' =
       PreviewData.mk (previewName r1)
         (Some (previewShown r1 (a1 _ (previewCall r1)))) false.
Proof.
  intros n s1 s2 s3 s4 s3'.
  destruct (fire_preview_request clock r1 s) as (k1 & Hs1 & Hk1).
  fold s1 in Hs1.
  destruct (fire_preview_request clock r2 s1) as (k2 & Hs2 & Hk2).
  fold s2 in Hs2.
  assert (Hin2 : inflight s2 =
                 inflight s ++ [mkPending (previewCall r1) k1;
                                mkPending (previewCall r2) k2]).
  { rewrite Hs2, Hs1. cbn [inflight]. by rewrite <- app_assoc. }
  assert (Hs3 : s3 = land (machine s2)
                  (inflight s ++ [mkPending (previewCall r1) k1])
                  (exec clock (k2 (a2 _ (previewCall r2)))
                        (world (machine s2)) (ticks (machine s2)))).
  { subst s3. replace (S n) with (length (inflight s ++ [mkPending (previewCall r1) k1]))
      by (rewrite length_app; cbn; subst n; lia).
    rewrite (fire_settle_middle clock s2 _ (mkPending (previewCall r2) k2) [] a2).
    - by rewrite app_nil_r.
    - rewrite Hin2. by rewrite <- app_assoc. }
  assert (Hs3' : s3' = land (machine s2) (inflight s ++ [mkPending (previewCall r2) k2])
                   (exec clock (k1 (a1 _ (previewCall r1)))
                         (world (machine s2)) (ticks (machine s2)))).
  { subst s3' n.
    by rewrite (fire_settle_middle clock s2 _ (mkPending (previewCall r1) k1)
                  [mkPending (previewCall r2) k2] a1). }
  rewrite Hk2 in Hs3. rewrite Hk1 in Hs3'.
  assert (Hs4 : s4 = land (machine s3) (inflight s ++ [])
                  (exec clock (k1 (a1 _ (previewCall r1)))
                        (world (machine s3)) (ticks (machine s3)))).
  { subst s4 n.
    rewrite (fire_settle_middle clock s3 _ (mkPending (previewCall r1) k1) [] a1);
      [reflexivity|]. by rewrite Hs3. }
  rewrite Hk1 in Hs4.
  unfold previewOf. rewrite Hs4, Hs3', Hs3, Hs2, Hs1. repeat split; reflexivity.
Qed.

(** ** Handlers whose every state update respects a preorder *)

Section Respect.
Context (R : relation World) `{!PreOrder R}.

Lemma respects_bind {A B} (t : Async A) (f : A -> Async B) :
  respects R t -> (forall a, respects R (f a)) -> respects R (t ≫= f).
Proof.
  intros Ht Hf. change (t ≫= f) with (bind t f).
  induction Ht; cbn; auto using @respects.
Qed.

Lemma respects_try_catch {A} (t : Async A) h :
  respects R t -> (forall e, respects R (h e)) -> respects R (try_catch t h).
Proof. intros Ht Hh. induction Ht; cbn; auto using @respects. Qed.

Lemma respects_try_finally {A} (t : Async A) fin :
  respects R t -> respects R fin -> respects R (try_finally t fin).
Proof.
  intros Ht Hfin. induction Ht; cbn; auto using @respects.
  - apply (respects_bind fin); auto using @respects.
  - apply (respects_bind fin); auto using @respects.
Qed.

Lemma respects_update f : (forall w, R w (f w)) -> respects R (update f).
Proof. intros Hf. apply respects_Update; auto using @respects. Qed.

Lemma respects_await {X} (c : GenCall X) : respects R (await c).
Proof. apply respects_Await. intros [r|e]; constructor. Qed.

(** A segment of such a handler moves the world along [R], and what it
    leaves suspended is such a handler again. *)
Lemma exec_respects {A} clock (t : Async A) w n :
  respects R t ->
  R w (exec clock t w n).1.1
  /\ match (exec clock t w n).2 with
     | Finished _ => True
     | Blocked c k => forall o, respects R (k o)
     end.
Proof.
  intros Ht. revert w n.
  induction Ht as [a|e|f k Hf Hk IH|k Hk IH|X c k Hk IH]; intros w n; cbn.
  - split; [reflexivity | exact I].
  - split; [reflexivity | exact I].
  - destruct (IH (f w) n) as [HR Hrest]. split; [|exact Hrest].
    by etrans; [apply Hf|].
  - apply IH.
  - split; [reflexivity | exact Hk].
Qed.

Lemma land_respects m others t clock :
  Forall (fun p => forall o, respects R (p_resume p o)) others ->
  respects R t ->
  let s' := land m others (exec clock t (world m) (ticks m)) in
  respectful R s' /\ R (world m) (world (machine s')).
Proof.
  intros Hothers Ht.
  destruct (exec_respects clock t (world m) (ticks m) Ht) as [HR Hk].
  destruct (exec clock t (world m) (ticks m)) as [[w n] [r|X c k]]; cbn in *.
  - split; assumption.
  - split; [|assumption]. unfold respectful; cbn.
    apply Forall_app. split; [assumption|]. by constructor.
Qed.

Lemma fire_respects clock ev s :
  (forall w i, respects R (handler w i)) ->
  respectful R s ->
  respectful R (fire clock ev s)
  /\ R (world (machine s)) (world (machine (fire clock ev s))).
Proof.
  intros Hhandlers Hs. destruct ev as [i|n answer]; cbn [fire].
  - apply land_respects; [exact Hs | apply Hhandlers].
  - destruct (inflight s !! n) as [p|] eqn:Hp; [|split; [exact Hs | reflexivity]].
    apply land_respects.
    + by apply Forall_delete.
    + unfold respectful in Hs. rewrite Forall_forall in Hs.
      apply Hs. by eapply list_elem_of_lookup_2.
Qed.
End Respect.

(** ** The chat history only grows *)

#[global] Instance extends_preorder : PreOrder extends.
Proof.
  split.
  - intros w. unfold extends. reflexivity.
  - intros w1 w2 w3. unfold extends. apply transitivity.
Qed.

Lemma extends_same f :
  (forall w, chatHistory (f w) = chatHistory w) -> forall w, extends w (f w).
Proof. intros Hf w. unfold extends. by rewrite Hf. Qed.

Lemma addMessage_extends message : respects extends (addMessage message).
Proof.
  apply respects_Clock. intros now. apply respects_update. intros w.
  unfold extends. autorewrite with world. by apply prefix_app_r.
Qed.

Create HintDb extends.
#[global] Hint Resolve addMessage_extends : extends.
#[global] Hint Extern 1 (respects extends (update _)) =>
  apply (respects_update extends), extends_same; reflexivity : extends.
#[global] Hint Extern 1 (respects extends (await _)) =>
  apply (respects_await extends) : extends.
#[global] Hint Extern 2 (respects extends (_ ≫= _)) =>
  apply (respects_bind extends); [|intros ?] : extends.
#[global] Hint Extern 2 (respects extends (try_catch _ _)) =>
  apply (respects_try_catch extends); [|intros ?] : extends.
#[global] Hint Extern 2 (respects extends (try_finally _ _)) =>
  apply (respects_try_finally extends) : extends.
#[global] Hint Extern 1 (respects extends (Ret _)) => constructor : extends.
#[global] Hint Extern 1 (respects extends (Throw _)) => constructor : extends.

Lemma handleApiKeySubmit_extends initializeAi written key :
  respects extends (handleApiKeySubmit initializeAi written key).
Proof.
  unfold handleApiKeySubmit, storageSetItem.
  destruct (initializeAi key), written; auto 10 with extends.
Qed.

Lemma useEffect_extends initializeAi written readable storage :
  respects extends (useEffect initializeAi written readable storage).
Proof.
  unfold useEffect, storageGetItem.
  apply (respects_bind extends); [destruct readable; constructor | intros storedKey].
  destruct storedKey as [key|]; [|constructor].
  destruct (truthy _); [apply handleApiKeySubmit_extends | constructor].
Qed.

Lemma handler_extends w i : respects extends (handler w i).
Proof.
  destruct i as [key initialized|message|codeToRefactor|service|architecture|];
    cbn [handler].
  - apply handleApiKeySubmit_extends.
  - unfold handleSendMessage, try_catch_finally.
    destruct (negb _); auto 20 with extends.
  - unfold handleRefactorRequest, try_catch_finally.
    destruct (negb _); [constructor|].
    repeat (apply (respects_bind extends); [auto with extends | intros ?]).
    apply (respects_try_finally extends); [|auto with extends].
    apply (respects_try_catch extends); [|intros ?; auto with extends].
    apply (respects_bind extends); [auto with extends | intros [analysis code]].
    auto with extends.
  - unfold handleGeneratePreviewRequest. auto 20 with extends.
  - unfold handleGenerateAppPreviewRequest. auto 20 with extends.
  - unfold onClose. auto with extends.
Qed.

Lemma step_extends clock s s' :
  respectful extends s -> step clock s s' ->
  respectful extends s' /\ extends (world (machine s)) (world (machine s')).
Proof.
  intros Hs (ev & _ & ->). apply fire_respects; [apply _ | | exact Hs].
  apply handler_extends.
Qed.

Lemma reachable_extends clock loaded s :
  reachable clock loaded s ->
  respectful extends s
  /\ INITIAL_CHAT_MESSAGES loaded `prefix_of` chatHistory (world (machine s)).
Proof.
  induction 1 as [storage initialized | s s' _ [IHr IHp] Hstep].
  - unfold boot, dispatch.
    apply (land_respects extends); [constructor | apply useEffect_extends].
  - destruct (step_extends clock s s' IHr Hstep) as [Hr Hext].
    split; [exact Hr|]. by etrans; [exact IHp|].
Qed.

Lemma addMessages_in_order clock messages w n :
  exec clock (addMessages messages) w n =
  (setChatHistory
     (fun prev => prev ++ stampAll messages (fun i => clock (i + n))) w,
   length messages + n, Finished (Resolved tt)).
Proof.
  revert w n. induction messages as [|d ds IH]; intros w n.
  - cbn. unfold setChatHistory. rewrite app_nil_r. by destruct w.
  - cbn [addMessages foldr]. cbn. fold (addMessages ds). rewrite IH.
    unfold setChatHistory; cbn. rewrite <- app_assoc. cbn.
    rewrite Nat.add_succ_r. repeat f_equal.
    unfold stampAll. apply imap_ext. intros i x _. cbn.
    by rewrite Nat.add_succ_r.
Qed.

(** C5: in every reachable state, a sequence of appends adds exactly one
    entry per message to the end of the chat history, in the order of the
    appends, each entry holding the fields of its message and the clock
    reading of its append; and every step of the application keeps the
    history it found as a prefix of the history it leaves: nothing is
    removed, reordered or changed. *)
Theorem chat_history_append_only clock loaded s :
  reachable clock loaded s ->
  (forall messages,
     historyOf (dispatch clock (addMessages messages) s) =
       historyOf s ++ stampAll messages (fun i => clock (i + ticks (machine s)))
     /\ length (historyOf (dispatch clock (addMessages messages) s)) =
          length (historyOf s) + length messages
     /\ (forall i message, messages !! i = Some message ->
           exists x,
             historyOf (dispatch clock (addMessages messages) s)
               !! (length (historyOf s) + i) = Some x
             /\ carries message x
             /\ ChatMessage.timestamp x = clock (i + ticks (machine s))))
  /\ (forall s', step clock s s' -> historyOf s `prefix_of` historyOf s')
  /\ (forall s' i x, step clock s s' ->
        historyOf s !! i = Some x -> historyOf s' !! i = Some x).
Proof.
  intros Hreach. split; [|split].
  - intros messages.
    assert (Heq : historyOf (dispatch clock (addMessages messages) s) =
                  historyOf s
                  ++ stampAll messages (fun i => clock (i + ticks (machine s)))).
    { unfold historyOf, dispatch. rewrite addMessages_in_order. reflexivity. }
    split; [exact Heq|]. rewrite Heq. split.
    + rewrite length_app. unfold stampAll. by rewrite length_imap.
    + intros i message Hi. exists (stamp message (clock (i + ticks (machine s)))).
      split; [|split; [repeat split | reflexivity]].
      rewrite lookup_app_r by lia.
      replace (length (historyOf s) + i - length (historyOf s)) with i by lia.
      unfold stampAll. rewrite list_lookup_imap, Hi. reflexivity.
  - intros s' Hstep.
    apply (step_extends clock s s'); [|exact Hstep].
    by apply (reachable_extends clock loaded).
  - intros s' i x Hstep Hx.
    destruct (step_extends clock s s') as [_ Hext]; [|exact Hstep|].
    { by apply (reachable_extends clock loaded). }
    by apply (prefix_lookup_Some _ _ _ _ Hx).
Qed.

Lemma started_reachable :
  reachable Sample.everyMinute "09:39 AM" Sample.started.
Proof.
  apply (reachable_step _ _
           (boot Sample.everyMinute "09:39 AM" ∅
                 (Resolved tt) (Resolved tt) (Resolved tt)));
    [apply reachable_boot|].
  exists (Intend (ApiKeySubmit "demo-key" (Resolved tt) (Resolved tt))).
  split; reflexivity.
Qed.

Lemma chat_history_append_only_witness :
  (fun x => (ChatMessage.author x, ChatMessage.type x, ChatMessage.content x,
             ChatMessage.timestamp x)) <$>
    historyOf (dispatch Sample.everyMinute
                 (addMessages [ userEntry "first"; keyPromptEntry;
                                userEntry "second" ])
                 Sample.started) =
    [ (ai, TEXT,
       "Welcome! I'm your AI development partner. Describe the app you want to build, and I'll generate the architecture, code, and UI previews for you.",
       "09:39 AM");
      (user, TEXT, "first", "09:40 AM");
      (ai, TEXT, "Please set your API key before we begin.", "09:41 AM");
      (user, TEXT, "second", "09:42 AM") ]
  /\ historyOf Sample.started
       `prefix_of`
     historyOf (fire Sample.everyMinute (Intend (SendMessage "a plant shop"))
                     Sample.started).
Proof.
  destruct (chat_history_append_only Sample.everyMinute "09:39 AM" Sample.started
              started_reachable) as (Hseq & Hprefix & _).
  split.
  - destruct (Hseq [userEntry "first"; keyPromptEntry; userEntry "second"])
      as (Heq & _).
    rewrite Heq. reflexivity.
  - apply Hprefix.
    exists (Intend (SendMessage "a plant shop")). split; reflexivity.
Defined.

(** C10: in every reachable state the chat history is non-empty, its first
    entry is the ai/TEXT welcome message of [INITIAL_CHAT_MESSAGES], and
    every step leaves that first entry in place. *)
Theorem welcome_stays_first clock loaded s :
  reachable clock loaded s ->
  historyOf s <> []
  /\ head (historyOf s) = head (INITIAL_CHAT_MESSAGES loaded)
  /\ (exists x, head (historyOf s) = Some x
                /\ ChatMessage.author x = ai /\ ChatMessage.type x = TEXT)
  /\ (forall s', step clock s s' -> head (historyOf s') = head (historyOf s)).
Proof.
  intros Hreach.
  destruct (reachable_extends clock loaded s Hreach) as [_ [rest Hs]].
  fold (historyOf s) in Hs.
  assert (Hhead : head (historyOf s) = head (INITIAL_CHAT_MESSAGES loaded))
    by (rewrite Hs; reflexivity).
  split; [by rewrite Hs|]. split; [exact Hhead|]. split.
  - eexists. split; [exact Hhead|]. split; reflexivity.
  - intros s' Hstep.
    assert (Hreach' : reachable clock loaded s') by (eapply reachable_step; eauto).
    destruct (reachable_extends clock loaded s' Hreach') as [_ [rest' Hs']].
    fold (historyOf s') in Hs'. rewrite Hhead, Hs'. reflexivity.
Qed.

Lemma welcome_stays_first_witness :
  ChatMessage.content <$>
    head (historyOf (fire Sample.everyMinute (Intend (SendMessage "a plant shop"))
                          Sample.started)) =
  Some "Welcome! I'm your AI development partner. Describe the app you want to build, and I'll generate the architecture, code, and UI previews for you.".
Proof.
  destruct (welcome_stays_first Sample.everyMinute "09:39 AM" Sample.started
              started_reachable) as (_ & _ & _ & Hstep).
  rewrite (Hstep _ (ex_intro _ (Intend (SendMessage "a plant shop"))
                      (conj eq_refl eq_refl))).
  reflexivity.
Defined.

(** * Further properties of the handlers *)

(** ** The build pipeline when the architecture call fails *)

(** With an active key and the architecture call failing, one invocation of
    [handleSendMessage] appends the user entry and the diagnostic only,
    makes that one call and never asks for backend code, and ends with
    [isLoading] false. *)
Theorem build_pipeline_architecture_failure env m key message error :
  truthy key = true ->
  quiet env ->
  settle env (length (calls m)) _ (generateInitialArchitecture message)
    = Rejected error ->
  chatHistory (world (run env (handleSendMessage key message) m).1) =
    chatHistory (world m)
    ++ stampAll [userEntry message; snagEntry error]
                (fun i => clock env (i + ticks m))
  /\ calls (run env (handleSendMessage key message) m).1 =
       calls m ++ [call (generateInitialArchitecture message)]
  /\ isLoading (world (run env (handleSendMessage key message) m).1) = false
  /\ (run env (handleSendMessage key message) m).2 = Resolved tt.
Proof.
  intros Hkey Hquiet Harch.
  unfold handleSendMessage, try_catch_finally. rewrite Hkey. cbn [negb].
  run_steps. rewrite Harch. run_steps. cbn [fst snd world calls].
  repeat (autorewrite with world; rewrite ?Hquiet).
  rewrite <- !app_assoc. repeat split; reflexivity.
Qed.

Lemma build_pipeline_architecture_failure_witness :
  ChatMessage.content <$>
    chatHistory (world (run Sample.down
      (handleSendMessage (Some "demo-key") "a plant shop") Sample.keyed).1) =
  [ "Welcome! I'm your AI development partner. Describe the app you want to build, and I'll generate the architecture, code, and UI previews for you.";
    "a plant shop";
    "I hit a snag. Quota exceeded. Could you try describing your app again?" ]
  /\ length (calls (run Sample.down
       (handleSendMessage (Some "demo-key") "a plant shop") Sample.keyed).1) = 1.
Proof.
  destruct (build_pipeline_architecture_failure Sample.down Sample.keyed
              (Some "demo-key") "a plant shop" Sample.quota)
    as (Hhist & Hcalls & _);
    [reflexivity | intros n w; reflexivity | reflexivity |].
  rewrite Hhist, Hcalls. split; reflexivity.
Defined.

(** ** Where an error can escape *)

(** Whatever the generation service, [initializeAi] and the storage write
    do, the promise of every handler ends fulfilled: each failure is caught
    inside the handler.  The mount effect is the one exception: it ends
    fulfilled when its storage read succeeds, and when the read throws,
    that error escapes the effect and nothing has been changed. *)
Theorem errors_escape_only_from_the_mount_read env m :
  (forall w i, (run env (handler w i) m).2 = Resolved tt)
  /\ (forall initializeAi written readable storage,
        (run env (useEffect initializeAi written readable storage) m).2 =
          match readable with
          | Resolved _ => Resolved tt
          | Rejected error => Rejected error
          end
        /\ (forall error, readable = Rejected error ->
              (run env (useEffect initializeAi written readable storage) m).1 = m)).
Proof.
  assert (Hsubmit : forall initializeAi written key m',
            (run env (handleApiKeySubmit initializeAi written key) m').2
            = Resolved tt).
  { intros initializeAi written key m'. unfold handleApiKeySubmit, storageSetItem.
    destruct (initializeAi key), written; reflexivity. }
  split.
  - intros w [key initialized written|message|codeToRefactor|service|architecture|];
      cbn [handler].
    + apply Hsubmit.
    + unfold handleSendMessage, try_catch_finally.
      destruct (negb _); [reflexivity|].
      run_steps. case_settle; run_steps; [|reflexivity].
      case_settle; run_steps; reflexivity.
    + unfold handleRefactorRequest, try_catch_finally.
      destruct (negb _); [reflexivity|].
      run_steps. case_settle; [destruct r|]; run_steps; reflexivity.
    + unfold handleGeneratePreviewRequest. run_steps. case_settle; reflexivity.
    + unfold handleGenerateAppPreviewRequest. run_steps. case_settle; reflexivity.
    + reflexivity.
  - intros initializeAi written readable storage. unfold useEffect, storageGetItem.
    destruct readable as [[]|error0].
    + split; [|intros error Herr; discriminate Herr].
      rewrite run_bind. cbn [run].
      destruct (storage !! _) as [storedKey|]; [|reflexivity].
      destruct (truthy _); [apply Hsubmit | reflexivity].
    + split; [reflexivity|]. intros error _. reflexivity.
Qed.

(** ** Key submission and the mount effect *)



(** A key that [initializeAi] accepts but whose storage write throws is
    not set: the write is inside the [try], so [setApiKey] is skipped and
    the alert is raised; the key holder and the storage keep their prior
    content, as on a rejected key. *)
Theorem key_submission_write_failure env m initializeAi written key error :
  initializeAi key = Resolved tt ->
  written = Rejected error ->
  world (run env (handleApiKeySubmit initializeAi written key) m).1 =
    alert "Failed to initialize with that API Key. Please check the key and try again."
          (world m)
  /\ apiKey (world (run env (handleApiKeySubmit initializeAi written key) m).1)
     = apiKey (world m)
  /\ sessionStorage
       (world (run env (handleApiKeySubmit initializeAi written key) m).1)
     = sessionStorage (world m)
  /\ (run env (handleApiKeySubmit initializeAi written key) m).2 = Resolved tt.
Proof.
  intros Hinit ->. unfold handleApiKeySubmit, storageSetItem. rewrite Hinit.
  repeat split; reflexivity.
Qed.

Lemma key_submission_write_failure_witness :
  apiKey (world (run Sample.good
    (handleApiKeySubmit (fun _ => Resolved tt) (Rejected Sample.quota) "new-key")
    Sample.keyed).1)
  = Some "demo-key"
  /\ alerts (world (run Sample.good
       (handleApiKeySubmit (fun _ => Resolved tt) (Rejected Sample.quota) "new-key")
       Sample.keyed).1)
     = ["Failed to initialize with that API Key. Please check the key and try again."].
Proof.
  destruct (key_submission_write_failure Sample.good Sample.keyed
              (fun _ => Resolved tt) (Rejected Sample.quota) "new-key"
              Sample.quota eq_refl eq_refl) as (Hworld & _).
  rewrite Hworld. split; reflexivity.
Defined.

(** The system right after mounting, by the content of the storage and
    the answers of the browser. *)
Lemma boot_cases clock loaded storage readable initialized written :
  boot clock loaded storage readable initialized written =
  mkSystem
    (mkMachine
       (match readable, storage !! storedKeyName with
        | Resolved _, Some storedKey =>
            if truthy (Some storedKey) then
              submitted storedKey initialized written (initialWorld loaded storage)
            else initialWorld loaded storage
        | _, _ => initialWorld loaded storage
        end) 0 []) [].
Proof.
  unfold boot, dispatch, useEffect, storageGetItem, storedKeyName.
  cbn [machine world ticks inflight].
  destruct readable as [[]|e]; [|reflexivity].
  destruct (storage !! _) as [storedKey|]; [|reflexivity].
  cbn -[truthy]. destruct (truthy _); [|reflexivity].
  unfold handleApiKeySubmit, storageSetItem.
  destruct initialized as [[]|e]; [destruct written as [[]|e]|]; reflexivity.
Qed.

(** Reloading restores the key: after a non-empty key was accepted and
    stored, the component mounted again on the storage that submission
    left (the storage readable and writable, [initializeAi] accepting the
    key again) starts with that key active and with the storage
    unchanged. *)
Theorem key_survives_reload env m initializeAi key clock loaded :
  truthy (Some key) = true ->
  initializeAi key = Resolved tt ->
  let storage :=
    sessionStorage
      (world (run env (handleApiKeySubmit initializeAi (Resolved tt) key) m).1) in
  let reloaded :=
    boot clock loaded storage (Resolved tt) (Resolved tt) (Resolved tt) in
  apiKey (world (machine reloaded)) = Some key
  /\ sessionStorage (world (machine reloaded)) = storage
  /\ (forall r r', rendered (world (machine reloaded)) (ApiKeySubmit key r r')
                   = false).
Proof.
  intros Htruthy Hinit storage reloaded. subst reloaded storage.
  unfold handleApiKeySubmit, storageSetItem. rewrite Hinit.
  cbn [run fst world sessionStorage].
  rewrite boot_cases. cbn -[truthy].
  unfold storedKeyName. rewrite lookup_insert_eq, Htruthy. cbn -[truthy].
  rewrite Htruthy. repeat split.
  by rewrite insert_insert_eq.
Qed.

Lemma key_survives_reload_witness :
  apiKey (world (machine (boot Sample.everyMinute "10:15 AM"
    (sessionStorage (world (run Sample.good
       (handleApiKeySubmit (fun _ => Resolved tt) (Resolved tt) "demo-key")
       Sample.keyless).1))
    (Resolved tt) (Resolved tt) (Resolved tt)))) = Some "demo-key".
Proof.
  apply (key_survives_reload Sample.good Sample.keyless (fun _ => Resolved tt)
           "demo-key" Sample.everyMinute "10:15 AM" eq_refl eq_refl).
Defined.

(** Mounting on a storage that holds no key, or the empty string as key,
    does nothing: no call to [initializeAi], no alert, no active key. *)
Theorem mount_without_usable_key clock loaded storage initialized written :
  truthy (storage !! storedKeyName) = false ->
  boot clock loaded storage (Resolved tt) initialized written =
  mkSystem (mkMachine (initialWorld loaded storage) 0 []) [].
Proof.
  intros Hkey. rewrite boot_cases.
  destruct (storage !! storedKeyName) as [storedKey|]; [|reflexivity].
  by rewrite Hkey.
Qed.

Lemma mount_without_usable_key_witness :
  apiKey (world (machine (boot Sample.everyMinute "09:39 AM"
                               {[ storedKeyName := EmptyString ]}
                               (Resolved tt) (Resolved tt) (Resolved tt))))
  = None.
Proof.
  rewrite (mount_without_usable_key Sample.everyMinute "09:39 AM"
             {[ storedKeyName := EmptyString ]} (Resolved tt) (Resolved tt));
    reflexivity.
Defined.

(** Mounting on a stored key that [initializeAi] rejects raises the alert
    and leaves no key active, and the rejected key stays in the storage:
    the key modal is shown, and the next mount will try that key again. *)
Theorem mount_with_rejected_key clock loaded storage error written :
  truthy (storage !! storedKeyName) = true ->
  let mounted :=
    boot clock loaded storage (Resolved tt) (Rejected error) written in
  apiKey (world (machine mounted)) = None
  /\ sessionStorage (world (machine mounted)) = storage
  /\ alerts (world (machine mounted)) =
       ["Failed to initialize with that API Key. Please check the key and try again."]
  /\ historyOf mounted = INITIAL_CHAT_MESSAGES loaded
  /\ (forall key r r',
        rendered (world (machine mounted)) (ApiKeySubmit key r r') = true).
Proof.
  intros Hkey mounted. subst mounted. rewrite boot_cases.
  destruct (storage !! storedKeyName) as [storedKey|]; [|discriminate Hkey].
  rewrite Hkey. repeat split.
Qed.

Lemma mount_with_rejected_key_witness :
  sessionStorage (world (machine (boot Sample.everyMinute "09:39 AM"
     {[ storedKeyName := "revoked" ]}
     (Resolved tt) (Rejected Sample.quota) (Resolved tt))))
  = {[ storedKeyName := "revoked" ]}.
Proof.
  apply (mount_with_rejected_key Sample.everyMinute "09:39 AM"
           {[ storedKeyName := "revoked" ]} Sample.quota (Resolved tt)).
  reflexivity.
Defined.

(** The empty string as key: when [initializeAi] accepts it and the
    storage takes it, it is stored and set, yet it does not count as a
    key: the key modal stays rendered, the chat panel does not appear, and
    a reload on that storage starts without a key and without calling
    [initializeAi]. *)
Theorem empty_key_is_not_active env m initializeAi clock loaded initialized written :
  initializeAi EmptyString = Resolved tt ->
  let w :=
    world (run env (handleApiKeySubmit initializeAi (Resolved tt) EmptyString) m).1 in
  apiKey w = Some EmptyString
  /\ sessionStorage w !! storedKeyName = Some EmptyString
  /\ truthy (apiKey w) = false
  /\ (forall key r r', rendered w (ApiKeySubmit key r r') = true)
  /\ (forall message, rendered w (SendMessage message) = false)
  /\ boot clock loaded (sessionStorage w) (Resolved tt) initialized written =
       mkSystem (mkMachine (initialWorld loaded (sessionStorage w)) 0 []) [].
Proof.
  intros Hinit w.
  assert (Hw : w = setApiKey (Some EmptyString)
                     (setItem storedKeyName EmptyString (world m))).
  { subst w. unfold handleApiKeySubmit, storageSetItem. rewrite Hinit.
    reflexivity. }
  rewrite Hw. clear w Hw. cbn [apiKey sessionStorage setApiKey setItem].
  repeat split.
  - apply lookup_insert_eq.
  - rewrite boot_cases. by rewrite lookup_insert_eq.
Qed.

Lemma empty_key_is_not_active_witness :
  rendered (world (run Sample.good
      (handleApiKeySubmit (fun _ => Resolved tt) (Resolved tt) EmptyString)
      Sample.keyless).1)
    (SendMessage "a plant shop") = false.
Proof.
  apply (empty_key_is_not_active Sample.good Sample.keyless (fun _ => Resolved tt)
           Sample.everyMinute "09:39 AM" (Resolved tt) (Resolved tt) eq_refl).
Defined.

(** ** Invariants through the event loop *)

Section RespectSteps.
Context (R : relation World) `{!PreOrder R}.

Lemma respects_addMessage message :
  (forall now w,
     R w (setChatHistory (fun prev => prev ++ [stamp message now]) w)) ->
  respects R (addMessage message).
Proof.
  intros Hadd. apply respects_Clock. intros now.
  apply respects_Update; [apply Hadd | constructor].
Qed.

Lemma intend_respects clock i s :
  respects R (handler (world (machine s)) i) ->
  respectful R s ->
  respectful R (fire clock (Intend i) s)
  /\ R (world (machine s)) (world (machine (fire clock (Intend i) s))).
Proof. intros Hi Hs. cbn [fire]. by apply land_respects. Qed.

Lemma settle_respects clock n answer s :
  respectful R s ->
  respectful R (fire clock (Settle n answer) s)
  /\ R (world (machine s)) (world (machine (fire clock (Settle n answer) s))).
Proof.
  intros Hs. cbn [fire].
  destruct (inflight s !! n) as [p|] eqn:Hp; [|split; [exact Hs | reflexivity]].
  apply land_respects; [typeclasses eauto | by apply Forall_delete |].
  unfold respectful in Hs. rewrite Forall_forall in Hs.
  apply Hs. by eapply list_elem_of_lookup_2.
Qed.

(** When every handler and the mount effect respect [R], every reachable
    world is [R]-related to an initial world. *)
Lemma reachable_respects clock loaded s :
  (forall w i, respects R (handler w i)) ->
  (forall initializeAi written readable storage,
     respects R (useEffect initializeAi written readable storage)) ->
  reachable clock loaded s ->
  respectful R s
  /\ exists storage, R (initialWorld loaded storage) (world (machine s)).
Proof.
  intros Hhandlers Hmount.
  induction 1 as [storage readable initialized written
                 | s s' _ [IHr [storage IHw]] (ev & _ & ->)].
  - destruct (land_respects R
                (mkMachine (initialWorld loaded storage) 0 []) []
                (useEffect (fun _ => initialized) written readable storage) clock)
      as [Hr Hw]; [constructor | apply Hmount |].
    split; [exact Hr | exists storage; exact Hw].
  - destruct (fire_respects R clock ev s Hhandlers IHr) as [Hr Hw].
    split; [exact Hr|]. exists storage. by etrans.
Qed.
End RespectSteps.

(** Walks a handler down to its state updates; [leaf] proves the relation
    for each of them. *)
Ltac walk R leaf :=
  lazymatch goal with
  | |- respects _ (addMessage _) =>
      apply (respects_addMessage R); intros ? ?; leaf
  | |- respects _ (update _) => apply (respects_update R); intros ?; leaf
  | |- respects _ (await _) => apply (respects_await R)
  | |- respects _ (try_catch_finally _ _ _) =>
      unfold try_catch_finally; walk R leaf
  | |- respects _ (try_finally _ _) =>
      apply (respects_try_finally R); walk R leaf
  | |- respects _ (try_catch _ _) =>
      apply (respects_try_catch R); [walk R leaf | intros ?; walk R leaf]
  | |- respects _ (_ ≫= _) =>
      apply (respects_bind R); [walk R leaf | intros ?; walk R leaf]
  | |- respects _ (Ret _) => constructor
  | |- respects _ (Throw _) => constructor
  | |- respects _ (let _ := _ in _) => cbv zeta; walk R leaf
  | |- respects _ (match ?x with _ => _ end) => destruct x; walk R leaf
  end.

Ltac walk_handler R leaf :=
  lazymatch goal with
  | |- respects _ (handler _ ?i) =>
      destruct i; cbn [handler];
      unfold handleApiKeySubmit, storageSetItem, handleSendMessage,
             handleRefactorRequest, handleGeneratePreviewRequest,
             handleGenerateAppPreviewRequest, onClose;
      walk R leaf
  | |- respects _ (useEffect _ _ _ _) =>
      unfold useEffect, storageGetItem, handleApiKeySubmit, storageSetItem;
      walk R leaf
  end.

(** *** Every entry of the history is well formed *)

#[global] Instance grows_preorder P : PreOrder (grows P).
Proof.
  split.
  - intros w. exists []. by rewrite app_nil_r.
  - intros w1 w2 w3 (a1 & H1 & HP1) (a2 & H2 & HP2). exists (a1 ++ a2).
    split; [by rewrite H2, H1, <- app_assoc | by apply Forall_app].
Qed.

Ltac grows_leaf :=
  first
    [ exists []; split; [by rewrite app_nil_r | constructor]
    | eexists [_]; split;
      [ reflexivity
      | constructor; [|constructor];
        repeat split; try reflexivity; eexists; reflexivity ] ].

Lemma handler_wellFormed w i : respects (grows wellFormed) (handler w i).
Proof. walk_handler (grows wellFormed) grows_leaf. Qed.

Lemma useEffect_wellFormed initializeAi written readable storage :
  respects (grows wellFormed) (useEffect initializeAi written readable storage).
Proof. walk_handler (grows wellFormed) grows_leaf. Qed.

(** In every reachable state every entry of the chat history is well
    formed: ARCHITECTURE and APP_PREVIEW_PROMPT entries carry an
    architecture, CODE and REFACTOR_ANALYSIS entries carry a code map
    tagged javascript, TEXT entries carry neither, no entry is a
    SUGGESTION or has a suggestion context, and what the user authored is
    plain TEXT. *)
Theorem history_entries_well_formed clock loaded s :
  reachable clock loaded s ->
  Forall wellFormed (historyOf s)
  /\ (forall x, x ∈ historyOf s -> ChatMessage.author x = user ->
        ChatMessage.type x = TEXT)
  /\ (forall x, x ∈ historyOf s -> ChatMessage.type x <> SUGGESTION).
Proof.
  intros Hreach.
  destruct (reachable_respects (grows wellFormed) clock loaded s
              handler_wellFormed useEffect_wellFormed Hreach)
    as [_ (storage & added & Hs & Hadded)].
  assert (Hall : Forall wellFormed (historyOf s)).
  { unfold historyOf. rewrite Hs. apply Forall_app. split; [|exact Hadded].
    repeat constructor. }
  split; [exact Hall|]. rewrite Forall_forall in Hall. split.
  - intros x Hx Huser. destruct (Hall x Hx) as [_ Hshape].
    destruct (ChatMessage.type x); try reflexivity;
      try (destruct Hshape as [Hai _]; congruence); contradiction.
  - intros x Hx Hsug. destruct (Hall x Hx) as [_ Hshape].
    by rewrite Hsug in Hshape.
Qed.

Lemma history_entries_well_formed_witness :
  Forall wellFormed
    (historyOf (fire Sample.everyMinute (Intend (SendMessage "a plant shop"))
                     Sample.started)).
Proof.
  apply (history_entries_well_formed Sample.everyMinute "09:39 AM").
  apply (reachable_step _ _ Sample.started); [apply started_reachable|].
  exists (Intend (SendMessage "a plant shop")). split; reflexivity.
Defined.

(** *** The preview state keeps one of its three forms *)

#[global] Instance previewKept_preorder : PreOrder previewKept.
Proof.
  split.
  - intros w H. exact H.
  - intros w1 w2 w3 H12 H23 H. apply H23, H12, H.
Qed.

Ltac previewKept_leaf :=
  unfold previewKept, previewShape; cbn;
  first [ intros H; exact H
        | intros _; right; left; eexists; reflexivity
        | intros _; right; right; do 2 eexists; reflexivity ].

Lemma handler_previewKept w i : respects previewKept (handler w i).
Proof. walk_handler previewKept previewKept_leaf. Qed.

Lemma useEffect_previewKept initializeAi written readable storage :
  respects previewKept (useEffect initializeAi written readable storage).
Proof. walk_handler previewKept previewKept_leaf. Qed.

(** In every reachable state the preview state is the initial one, or
    loading without content, or settled with content: content is never
    shown while the loading flag is up, and once a preview was requested
    the state is never both idle and empty. *)
Theorem preview_state_shape clock loaded s :
  reachable clock loaded s ->
  previewShape (previewOf s)
  /\ (PreviewData.isLoading (previewOf s) = true ->
        PreviewData.htmlContent (previewOf s) = None)
  /\ (PreviewData.htmlContent (previewOf s) = None ->
        PreviewData.isLoading (previewOf s) = false ->
        previewOf s = PreviewData.mk EmptyString None false).
Proof.
  intros Hreach.
  destruct (reachable_respects previewKept clock loaded s
              handler_previewKept useEffect_previewKept Hreach)
    as [_ (storage & Hkept)].
  assert (Hshape : previewShape (previewOf s)) by (apply Hkept; by left).
  split; [exact Hshape|].
  destruct Hshape as [-> | [(name & ->) | (name & html & ->)]];
    split; cbn; intros; congruence.
Qed.

Lemma preview_state_shape_witness :
  PreviewData.htmlContent (previewOf Sample.ordersAsked) = None.
Proof.
  apply (preview_state_shape Sample.everyMinute "09:39 AM"); [|reflexivity].
  apply (reachable_step _ _ Sample.usersAsked).
  - apply (reachable_step _ _ Sample.started); [apply started_reachable|].
    exists (Intend (GeneratePreview Sample.users)). split; reflexivity.
  - exists (Intend (GeneratePreview Sample.orders)). split; reflexivity.
Defined.

(** *** Closing the preview while it loads *)

(** Closing the modal while a preview loads cancels nothing: the call
    stays in flight, and when it settles the preview state takes its
    result, but the modal stays closed. *)
Theorem close_does_not_cancel clock s r (answer : Answer) :
  let n := length (inflight s) in
  let s1 := fire clock (Intend (previewIntent r)) s in
  let s2 := fire clock (Intend ClosePreview) s1 in
  let s3 := fire clock (Settle n answer) s2 in
  isPreviewModalOpen (world (machine s1)) = true
  /\ isPreviewModalOpen (world (machine s2)) = false
  /\ previewOf s2 = PreviewData.mk (previewName r) None true
  /\ length (inflight s2) = S n
  /\ isPreviewModalOpen (world (machine s3)) = false
  /\ previewOf s3 =
       PreviewData.mk (previewName r)
         (Some (previewShown r (answer _ (previewCall r)))) false
  /\ inflight s3 = inflight s.
Proof.
  intros n s1 s2 s3.
  destruct (fire_preview_request clock r s) as (k & Hs1 & Hk). fold s1 in Hs1.
  assert (Hs2 : s2 =
    mkSystem
      (mkMachine (setPreviewModalOpen false (world (machine s1)))
                 (ticks (machine s1)) (calls (machine s1)))
      (inflight s1)) by reflexivity.
  assert (Hin2 : inflight s2 = inflight s ++ mkPending (previewCall r) k :: [])
    by (rewrite Hs2, Hs1; reflexivity).
  assert (Hs3 : s3 = land (machine s2) (inflight s ++ [])
                  (exec clock (k (answer _ (previewCall r)))
                        (world (machine s2)) (ticks (machine s2)))).
  { subst s3 n.
    by rewrite (fire_settle_middle clock s2 _ _ [] answer Hin2). }
  rewrite Hk in Hs3. unfold previewOf.
  rewrite Hs3, Hin2, Hs2, Hs1. cbn. rewrite length_app, app_nil_r. cbn.
  repeat split; try reflexivity. lia.
Qed.

(** *** The key holder through the event loop *)

#[global] Instance keyFrame_preorder : PreOrder keyFrame.
Proof.
  split.
  - intros w. by repeat split.
  - intros w1 w2 w3 (Hk1 & Hs1 & Ha1) (Hk2 & Hs2 & Ha2).
    repeat split; congruence.
Qed.

Ltac keyFrame_leaf := repeat split; reflexivity.

(** Apart from the key submission no handler touches the key holder. *)
Lemma handler_keyFrame w i :
  (forall key initialized written, i <> ApiKeySubmit key initialized written) ->
  respects keyFrame (handler w i).
Proof.
  intros Hi.
  destruct i as [key initialized written|message|codeToRefactor|service|architecture|];
    [by destruct (Hi key initialized written)|..]; cbn [handler];
    unfold handleSendMessage, handleRefactorRequest, handleGeneratePreviewRequest,
           handleGenerateAppPreviewRequest, onClose;
    walk keyFrame keyFrame_leaf.
Qed.

(** A key submission runs in one go. *)
Lemma fire_key_submit clock key initialized written s :
  fire clock (Intend (ApiKeySubmit key initialized written)) s =
  mkSystem
    (mkMachine (submitted key initialized written (world (machine s)))
               (ticks (machine s)) (calls (machine s)))
    (inflight s).
Proof.
  destruct initialized as [[]|e]; [destruct written as [[]|e]|]; reflexivity.
Qed.

Lemma step_key clock s s' :
  respectful keyFrame s -> step clock s s' ->
  respectful keyFrame s'
  /\ (keyFrame (world (machine s)) (world (machine s'))
      \/ exists key initialized written,
           truthy (apiKey (world (machine s))) = false
           /\ s' = fire clock (Intend (ApiKeySubmit key initialized written)) s).
Proof.
  intros Hs (ev & Hoff & ->). destruct ev as [i|n answer].
  - destruct i as [key initialized written|message|codeToRefactor|service|architecture|];
      [ split;
        [ rewrite fire_key_submit; exact Hs
        | right; exists key, initialized, written; split; [|reflexivity];
          cbn in Hoff; by destruct (truthy _) ]
      | .. ];
      (match goal with
       | |- context [fire clock (Intend ?i) s] =>
           destruct (intend_respects keyFrame clock i s) as [Hr Hw];
             [ apply handler_keyFrame; intros; discriminate
             | exact Hs
             | split; [exact Hr | left; exact Hw] ]
       end).
  - destruct (settle_respects keyFrame clock n answer s Hs) as [Hr Hw].
    split; [exact Hr | left; exact Hw].
Qed.

Lemma reachable_keyFrame clock loaded s :
  reachable clock loaded s -> respectful keyFrame s.
Proof.
  induction 1 as [storage readable initialized written | s s' _ IH Hstep].
  - rewrite boot_cases. constructor.
  - by destruct (step_key clock s s' IH Hstep).
Qed.

(** Once a key is active no step of the application changes it: the key,
    the session storage and the alert box stay as they are, whatever the
    user does and however the pending calls settle. *)
Theorem active_key_is_stable clock loaded s s' :
  reachable clock loaded s ->
  truthy (apiKey (world (machine s))) = true ->
  step clock s s' ->
  apiKey (world (machine s')) = apiKey (world (machine s))
  /\ sessionStorage (world (machine s')) = sessionStorage (world (machine s))
  /\ alerts (world (machine s')) = alerts (world (machine s)).
Proof.
  intros Hreach Hkey Hstep.
  destruct (step_key clock s s' (reachable_keyFrame clock loaded s Hreach) Hstep)
    as [_ [Hframe | (key & initialized & written & Hno & _)]].
  - exact Hframe.
  - congruence.
Qed.

Lemma active_key_is_stable_witness :
  apiKey (world (machine Sample.usersAsked)) = Some "demo-key".
Proof.
  destruct (active_key_is_stable Sample.everyMinute "09:39 AM"
              Sample.started Sample.usersAsked started_reachable eq_refl)
    as (Hkey & _).
  - exists (Intend (GeneratePreview Sample.users)). split; reflexivity.
  - rewrite Hkey. reflexivity.
Defined.

(** In every reachable state the active key is the one kept in the session
    storage. *)
Theorem active_key_is_stored clock loaded s key :
  reachable clock loaded s ->
  apiKey (world (machine s)) = Some key ->
  sessionStorage (world (machine s)) !! storedKeyName = Some key.
Proof.
  intros Hreach. revert key.
  induction Hreach as [storage readable initialized written
                      | s s' Hreach IH Hstep]; intros key.
  - rewrite boot_cases. cbn [machine world].
    destruct readable as [[]|e]; [|discriminate].
    destruct (storage !! storedKeyName) as [storedKey|] eqn:Hstored;
      [|discriminate].
    destruct (truthy (Some storedKey)); [|discriminate].
    destruct initialized as [[]|e]; [destruct written as [[]|e]|];
      try discriminate.
    cbn. intros [= <-]. apply lookup_insert_eq.
  - destruct (step_key clock s s' (reachable_keyFrame clock loaded s Hreach) Hstep)
      as [_ [(Hk & Hst & _) | (key' & initialized & written & _ & ->)]].
    + rewrite Hk, Hst. apply IH.
    + rewrite fire_key_submit. cbn [machine world].
      destruct initialized as [[]|e]; [destruct written as [[]|e]|]; cbn.
      * intros [= <-]. apply lookup_insert_eq.
      * apply IH.
      * apply IH.
Qed.

Lemma active_key_is_stored_witness :
  sessionStorage (world (machine Sample.started)) !! storedKeyName
  = Some "demo-key".
Proof.
  apply (active_key_is_stored Sample.everyMinute "09:39 AM" Sample.started
           "demo-key" started_reachable eq_refl).
Defined.

(** Until a key is active nothing but key submissions has happened: the
    chat history is the welcome message alone, no call to the generation
    service was ever made, none is in flight, nothing loads and no preview
    was requested. *)
Theorem nothing_happens_before_a_key clock loaded s :
  reachable clock loaded s ->
  truthy (apiKey (world (machine s))) = false ->
  pristine loaded s.
Proof.
  induction 1 as [storage readable initialized written
                 | s s' Hreach IH (ev & Hoff & ->)];
    intros Hkey.
  - rewrite boot_cases in *. cbn [machine world] in Hkey.
    destruct readable as [[]|e]; [|by repeat split].
    destruct (storage !! storedKeyName) as [storedKey|]; [|by repeat split].
    destruct (truthy (Some storedKey)) eqn:Hstored; [|by repeat split].
    destruct initialized as [[]|e]; [destruct written as [[]|e]|];
      by repeat split.
  - destruct (truthy (apiKey (world (machine s)))) eqn:Hbefore.
    + destruct (step_key clock s (fire clock ev s)
                  (reachable_keyFrame clock loaded s Hreach)
                  (ex_intro _ ev (conj Hoff eq_refl)))
        as [_ [(Hk & _) | (key & initialized & written & Hno & _)]]; congruence.
    + specialize (IH eq_refl). destruct IH as (Hh & Hl & Hm & Hp & Hc & Hi).
      destruct ev as [i|n answer].
      * destruct i; cbn in Hoff; rewrite Hbefore in Hoff; try discriminate Hoff.
        rewrite fire_key_submit. unfold pristine, historyOf, previewOf in *.
        cbn [machine world calls inflight].
        destruct initialized as [[]|e]; [destruct written as [[]|e]|];
          cbn; repeat split; assumption.
      * cbn in Hoff. rewrite Hi in Hoff. discriminate Hoff.
Qed.

Lemma nothing_happens_before_a_key_witness :
  pristine "09:39 AM"
    (fire Sample.everyMinute
          (Intend (ApiKeySubmit "bad-key" (Rejected Sample.quota) (Resolved tt)))
          (boot Sample.everyMinute "09:39 AM" ∅
                (Resolved tt) (Resolved tt) (Resolved tt))).
Proof.
  apply (nothing_happens_before_a_key Sample.everyMinute "09:39 AM");
    [|reflexivity].
  apply (reachable_step _ _
           (boot Sample.everyMinute "09:39 AM" ∅
                 (Resolved tt) (Resolved tt) (Resolved tt)));
    [apply reachable_boot|].
  exists (Intend (ApiKeySubmit "bad-key" (Rejected Sample.quota) (Resolved tt))).
  split; reflexivity.
Defined.

(** *** The loading flag is never up with nothing in flight *)

#[global] Instance loadFrame_preorder : PreOrder loadFrame.
Proof.
  split.
  - intros w. reflexivity.
  - intros w1 w2 w3 H12 H23. unfold loadFrame in *. congruence.
Qed.

Lemma clearing_finally {A} (t : Async A) :
  clearing (try_finally t (update (setIsLoading false))).
Proof.
  induction t as [a|e|g k IH|k IH|X c k IH]; cbn.
  - by apply clearing_Ret.
  - by apply clearing_Throw.
  - by apply clearing_Update.
  - by apply clearing_Clock.
  - by apply clearing_Await.
Qed.

Lemma clearing_after_addMessage {A} message (k : Async A) :
  clearing k -> clearing (addMessage message ≫= fun _ => k).
Proof.
  intros Hk. apply clearing_Clock. intros now. by apply clearing_Update.
Qed.

Lemma clearing_after_update {A} f (k : Async A) :
  clearing k -> clearing (update f ≫= fun _ => k).
Proof. intros Hk. by apply clearing_Update. Qed.

(** A segment of a clearing handler ends with the flag down, or suspends
    on a handler that is clearing again. *)
Lemma exec_clearing {A} clock (t : Async A) w n :
  clearing t ->
  match exec clock t w n with
  | (w', _, Finished _) => isLoading w' = false
  | (_, _, Blocked c k) => forall o, clearing (k o)
  end.
Proof.
  intros Ht. revert w n.
  induction Ht as [f a Hf|f e Hf|f k Hk IH|k Hk IH|X c k Hk IH]; intros w n; cbn.
  - apply Hf.
  - apply Hf.
  - apply IH.
  - apply IH.
  - exact Hk.
Qed.

(** Run to its end, a clearing handler leaves the flag down. *)
Lemma run_clearing {A} env (t : Async A) m :
  clearing t -> isLoading (world (run env t m).1) = false.
Proof.
  intros Ht. revert m.
  induction Ht as [f a Hf|f e Hf|f k Hk IH|k Hk IH|X c k Hk IH]; intros m; cbn.
  - apply Hf.
  - apply Hf.
  - apply IH.
  - apply IH.
  - apply IH.
Qed.

Ltac loadFrame_leaf := reflexivity.

(** Each handler either ends by lowering the flag or leaves it alone. *)
Lemma handler_loadKind w i :
  clearing (handler w i) \/ respects loadFrame (handler w i).
Proof.
  destruct i as [key initialized written|message|codeToRefactor|service|architecture|];
    cbn [handler].
  - right. unfold handleApiKeySubmit, storageSetItem.
    walk loadFrame loadFrame_leaf.
  - unfold handleSendMessage. destruct (negb _).
    + right. walk loadFrame loadFrame_leaf.
    + left. apply clearing_after_addMessage, clearing_after_update.
      apply clearing_finally.
  - unfold handleRefactorRequest. destruct (negb _).
    + right. constructor.
    + left. apply clearing_after_addMessage, clearing_after_update.
      apply clearing_finally.
  - right. unfold handleGeneratePreviewRequest. walk loadFrame loadFrame_leaf.
  - right. unfold handleGenerateAppPreviewRequest. walk loadFrame loadFrame_leaf.
  - right. unfold onClose. walk loadFrame loadFrame_leaf.
Qed.

Lemma land_clearing clock m others t :
  clearing t ->
  Forall loadKind others ->
  let s' := land m others (exec clock t (world m) (ticks m)) in
  Forall loadKind (inflight s')
  /\ flagCovered (isLoading (world (machine s'))) (inflight s').
Proof.
  intros Ht Hothers.
  pose proof (exec_clearing clock t (world m) (ticks m) Ht) as Hexec.
  destruct (exec clock t (world m) (ticks m)) as [[w n] [r|X c k]]; cbn in *.
  - split; [exact Hothers|]. intros Hup. congruence.
  - split.
    + apply Forall_app. split; [exact Hothers|].
      constructor; [by left | constructor].
    + intros _. exists (length others), (mkPending c k). split; [|exact Hexec].
      by apply list_lookup_middle.
Qed.

Lemma land_loadFrame clock m others t :
  respects loadFrame t ->
  Forall loadKind others ->
  flagCovered (isLoading (world m)) others ->
  let s' := land m others (exec clock t (world m) (ticks m)) in
  Forall loadKind (inflight s')
  /\ flagCovered (isLoading (world (machine s'))) (inflight s').
Proof.
  intros Ht Hothers Hflag.
  destruct (exec_respects loadFrame clock t (world m) (ticks m) Ht) as [Hw Hk].
  destruct (exec clock t (world m) (ticks m)) as [[w n] [r|X c k]];
    cbn in *; unfold loadFrame in Hw.
  - split; [exact Hothers|]. intros Hup. apply Hflag. congruence.
  - split.
    + apply Forall_app. split; [exact Hothers|].
      constructor; [by right | constructor].
    + intros Hup. destruct Hflag as (j & p & Hp & Hclear); [congruence|].
      exists j, p. split; [|exact Hclear]. by apply lookup_app_l_Some.
Qed.

Lemma land_loadKind clock m others t :
  clearing t \/ respects loadFrame t ->
  Forall loadKind others ->
  flagCovered (isLoading (world m)) others ->
  let s' := land m others (exec clock t (world m) (ticks m)) in
  Forall loadKind (inflight s')
  /\ flagCovered (isLoading (world (machine s'))) (inflight s').
Proof.
  intros [Ht|Ht] Hothers Hflag.
  - by apply land_clearing.
  - by apply land_loadFrame.
Qed.

Lemma step_loadKind clock s s' :
  Forall loadKind (inflight s) ->
  flagCovered (isLoading (world (machine s))) (inflight s) ->
  step clock s s' ->
  Forall loadKind (inflight s')
  /\ flagCovered (isLoading (world (machine s'))) (inflight s').
Proof.
  intros Hkinds Hflag (ev & _ & ->). destruct ev as [i|n answer]; cbn [fire].
  - apply land_loadKind; [apply handler_loadKind | exact Hkinds | exact Hflag].
  - destruct (inflight s !! n) as [p|] eqn:Hp; [|by split].
    assert (Hkind : loadKind p).
    { rewrite Forall_forall in Hkinds. apply Hkinds.
      by eapply list_elem_of_lookup_2. }
    assert (Hresumed :
              clearing (p_resume p (answer _ (p_call p)))
              \/ respects loadFrame (p_resume p (answer _ (p_call p))))
      by (destruct Hkind as [Hc|Hf]; [left; apply Hc | right; apply Hf]).
    assert (Hrest : Forall loadKind (delete n (inflight s)))
      by (by apply Forall_delete).
    destruct (isLoading (world (machine s))) eqn:Hup.
    + destruct Hflag as (j & q & Hq & Hclear); [reflexivity|].
      destruct (decide (j = n)) as [->|Hjn].
      * assert (q = p) by congruence. subst q.
        by apply land_clearing.
      * apply land_loadKind; [exact Hresumed | exact Hrest |].
        intros _. destruct (decide (j < n)) as [Hlt|Hge].
        -- exists j, q. split; [|exact Hclear].
           by rewrite list_lookup_delete_lt.
        -- exists (pred j), q. split; [|exact Hclear].
           rewrite list_lookup_delete_ge by lia.
           by replace (S (pred j)) with j by lia.
    + apply land_loadKind; [exact Hresumed | exact Hrest |].
      rewrite Hup. intros Hno. discriminate Hno.
Qed.

Lemma reachable_loadKind clock loaded s :
  reachable clock loaded s ->
  Forall loadKind (inflight s)
  /\ flagCovered (isLoading (world (machine s))) (inflight s).
Proof.
  induction 1 as [storage readable initialized written | s s' _ [IHk IHf] Hstep].
  - rewrite boot_cases. split; [constructor|]. cbn [machine world].
    intros Hup. exfalso. revert Hup.
    destruct readable; [|discriminate].
    destruct (storage !! storedKeyName) as [storedKey|]; [|discriminate].
    destruct (truthy _); [|discriminate].
    destruct initialized; [destruct written|]; discriminate.
  - by apply (step_loadKind clock s s').
Qed.

(** In every reachable state in which [isLoading] is true, a pipeline is
    in flight that lowers the flag when it ends: however its call settles
    and whatever happens while it runs on, [isLoading] is false once it
    has finished. *)
Theorem loading_flag_is_covered clock loaded s :
  reachable clock loaded s ->
  isLoading (world (machine s)) = true ->
  exists j p,
    inflight s !! j = Some p
    /\ forall o env m, isLoading (world (run env (p_resume p o) m).1) = false.
Proof.
  intros Hreach Hup.
  destruct (reachable_loadKind clock loaded s Hreach) as [_ Hflag].
  destruct (Hflag Hup) as (j & p & Hp & Hclear).
  exists j, p. split; [exact Hp|]. intros o env m. by apply run_clearing.
Qed.

Lemma loading_flag_is_covered_witness :
  exists j p,
    inflight (fire Sample.everyMinute (Intend (SendMessage "a plant shop"))
                   Sample.started) !! j = Some p
    /\ forall o env m, isLoading (world (run env (p_resume p o) m).1) = false.
Proof.
  apply (loading_flag_is_covered Sample.everyMinute "09:39 AM"); [|reflexivity].
  apply (reachable_step _ _ Sample.started); [apply started_reachable|].
  exists (Intend (SendMessage "a plant shop")). split; reflexivity.
Defined.

(** ** A preview request on its own *)

(** A preview request that nothing interferes with makes exactly its one
    call and ends with the modal open and the preview state settled on its
    own name, holding the generated HTML or, when the call failed, the
    error fragment with the diagnostic; the chat history, the loading flag
    of the pipelines, the key holder and the alert box are not touched. *)
Theorem preview_request_alone env m w r :
  (forall n w', meanwhile env n w' = w') ->
  let end_ := run env (handler w (previewIntent r)) m in
  previewData (world end_.1) =
    PreviewData.mk (previewName r)
      (Some (previewShown r (settle env (length (calls m)) _ (previewCall r))))
      false
  /\ isPreviewModalOpen (world end_.1) = true
  /\ calls end_.1 = calls m ++ [call (previewCall r)]
  /\ chatHistory (world end_.1) = chatHistory (world m)
  /\ isLoading (world end_.1) = isLoading (world m)
  /\ keyFrame (world m) (world end_.1)
  /\ end_.2 = Resolved tt.
Proof.
  intros Halone end_. subst end_.
  destruct r as [service|architecture]; cbn [previewIntent handler previewCall];
    [unfold handleGeneratePreviewRequest | unfold handleGenerateAppPreviewRequest];
    run_steps; rewrite Halone; case_settle; repeat split; reflexivity.
Qed.

Lemma preview_request_alone_witness :
  previewData (world (run Sample.down
    (handleGenerateAppPreviewRequest Sample.planto) Sample.keyed).1) =
  PreviewData.mk "Planto API (App Preview)"
    (Some ("<div class=" +:+ dq +:+ "p-8 text-center text-red-400" +:+ dq +:+
           "><h2 class=" +:+ dq +:+ "text-xl font-bold mb-2" +:+ dq +:+
           ">App Preview Generation Failed</h2><p>Quota exceeded</p></div>"))
    false.
Proof.
  destruct (preview_request_alone Sample.down Sample.keyed (world Sample.keyed)
              (AppPreview Sample.planto)) as (Hdata & _);
    [intros n w'; reflexivity|].
  cbv zeta in Hdata. cbn [previewIntent handler] in Hdata. rewrite Hdata.
  reflexivity.
Defined.

(** ** Overlapping build pipelines *)

(** With a key active, a message starts a build: the user entry is
    appended, the flag goes up, the architecture call is issued and the
    handler suspends; resumed on a failed call it appends the diagnostic
    and lowers the flag. *)
Lemma fire_send_message clock message s :
  truthy (apiKey (world (machine s))) = true ->
  exists k,
    fire clock (Intend (SendMessage message)) s =
      mkSystem
        (mkMachine
           (setIsLoading true
              (setChatHistory
                 (fun prev => prev ++ [stamp (userEntry message)
                                             (clock (ticks (machine s)))])
                 (world (machine s))))
           (S (ticks (machine s)))
           (calls (machine s) ++ [call (generateInitialArchitecture message)]))
        (inflight s ++ [mkPending (generateInitialArchitecture message) k])
    /\ forall error w n,
         exec clock (k (Rejected error)) w n =
         (setIsLoading false
            (setChatHistory (fun prev => prev ++ [stamp (snagEntry error) (clock n)]) w),
          S n, Finished (Resolved tt)).
Proof.
  intros Hkey. eexists. split.
  - cbn [fire handler]. unfold handleSendMessage. rewrite Hkey. reflexivity.
  - intros error w n. reflexivity.
Qed.

(** [handleSendMessage] does not look at [isLoading]: a second message
    sent while a build is in flight starts a second build, and when the
    first one ends (here on a failed architecture call) the flag goes down
    although the second is still waiting for its answer. *)
Theorem loading_flag_is_not_a_lock clock s first second (answer : Answer) error :
  truthy (apiKey (world (machine s))) = true ->
  answer _ (generateInitialArchitecture first) = Rejected error ->
  let n := length (inflight s) in
  let s1 := fire clock (Intend (SendMessage first)) s in
  let s2 := fire clock (Intend (SendMessage second)) s1 in
  let s3 := fire clock (Settle n answer) s2 in
  isLoading (world (machine s1)) = true
  /\ isLoading (world (machine s2)) = true
  /\ calls (machine s2) =
       calls (machine s) ++ [ call (generateInitialArchitecture first);
                              call (generateInitialArchitecture second) ]
  /\ isLoading (world (machine s3)) = false
  /\ (exists p, inflight s3 = inflight s ++ [p]
                /\ existT (p_type p) (p_call p)
                   = existT _ (generateInitialArchitecture second)).
Proof.
  intros Hkey Hanswer n s1 s2 s3.
  destruct (fire_send_message clock first s Hkey) as (k1 & Hs1 & Hk1).
  fold s1 in Hs1.
  assert (Hkey1 : truthy (apiKey (world (machine s1))) = true)
    by (rewrite Hs1; exact Hkey).
  destruct (fire_send_message clock second s1 Hkey1) as (k2 & Hs2 & _).
  fold s2 in Hs2.
  assert (Hin2 : inflight s2 =
                 inflight s ++ mkPending (generateInitialArchitecture first) k1
                            :: [mkPending (generateInitialArchitecture second) k2]).
  { rewrite Hs2, Hs1. cbn [inflight]. by rewrite <- app_assoc. }
  assert (Hs3 : s3 = land (machine s2)
                  (inflight s ++ [mkPending (generateInitialArchitecture second) k2])
                  (exec clock (k1 (answer _ (generateInitialArchitecture first)))
                        (world (machine s2)) (ticks (machine s2)))).
  { subst s3 n. by rewrite (fire_settle_middle clock s2 _ _ _ answer Hin2). }
  cbn [p_call p_type] in Hs3. rewrite Hanswer, Hk1 in Hs3.
  rewrite Hs3, Hs2, Hs1. cbn. rewrite <- app_assoc.
  repeat split; try reflexivity. eexists. split; reflexivity.
Qed.

Lemma loading_flag_is_not_a_lock_witness :
  isLoading (world (machine
    (fire Sample.everyMinute (Settle 0 (settle Sample.down 0))
       (fire Sample.everyMinute (Intend (SendMessage "a pet shop"))
          (fire Sample.everyMinute (Intend (SendMessage "a plant shop"))
                Sample.started))))) = false
  /\ length (inflight
       (fire Sample.everyMinute (Settle 0 (settle Sample.down 0))
          (fire Sample.everyMinute (Intend (SendMessage "a pet shop"))
             (fire Sample.everyMinute (Intend (SendMessage "a plant shop"))
                   Sample.started)))) = 1.
Proof.
  destruct (loading_flag_is_not_a_lock Sample.everyMinute Sample.started
              "a plant shop" "a pet shop" (settle Sample.down 0) Sample.quota
              eq_refl eq_refl) as (_ & _ & _ & Hflag & _).
  split; [exact Hflag | reflexivity].
Defined.
